(** * A shallow embedding of [custom_chatbot.py]

    The query interpreter of the financial chatbot: text normalisation,
    the company / year / metric extractors, the value formatter [money],
    the row lookup [get_row] and the dispatcher [handle_query].

    Modelling choices:
    - strings are Rocq [string]s of ASCII characters; [str.lower],
      [str.strip] and the regex class [\s] are modelled on that alphabet;
    - metric values (Python floats) are finite rationals [Q]; rounding in
      the [format] mini-language is round-half-to-even on the exact value;
      the arithmetic of the growth report rounds each result to binary64
      ([round_double]), with infinities and NaN as [pyfloat] values;
    - a raised Python exception is the [Exc] side of the error monad [M];
    - [load_data] is modelled from the point where the CSV rows have been
      parsed: the context holds the rows, the sorted set of company names
      and the sorted set of fiscal years. *)

From Stdlib Require Import ZArith QArith Qabs List String Ascii Bool Lia.
From Stdlib Require Import Numbers.DecimalString Sorting.Sorted Sorting.Permutation.
Import ListNotations.
Open Scope string_scope.

(** ** Python exceptions and the error monad *)

Inductive py_exc := IndexError | ValueError | ZeroDivisionError | KeyError.

Definition M (A : Type) : Type := (py_exc + A)%type.
Definition ret {A} (a : A) : M A := inr a.
Definition raise {A} (e : py_exc) : M A := inl e.
Definition bind {A B} (m : M A) (k : A -> M B) : M B :=
  match m with inl e => inl e | inr a => k a end.

Notation "'let*' x ':=' m 'in' k" := (bind m (fun x => k))
  (at level 200, x name, m at level 100, k at level 200).

Fixpoint mapM {A B} (f : A -> M B) (l : list A) : M (list B) :=
  match l with
  | [] => ret []
  | x :: l' => let* y := f x in let* ys := mapM f l' in ret (y :: ys)
  end.

(** ** Characters and strings *)

Definition nl : string := String (ascii_of_nat 10) EmptyString.

(** Python's [str.isspace] / regex [\s] on ASCII: \t \n \v \f \r, the
    separators \x1c-\x1f, and the space. *)
Definition is_space (c : ascii) : bool :=
  let n := nat_of_ascii c in
  ((9 <=? n) && (n <=? 13))%nat || ((28 <=? n) && (n <=? 32))%nat.

Definition is_digit (c : ascii) : bool :=
  let n := nat_of_ascii c in ((48 <=? n) && (n <=? 57))%nat.

Definition digit_val (c : ascii) : Z := Z.of_nat (nat_of_ascii c - 48).

Definition lower_char (c : ascii) : ascii :=
  let n := nat_of_ascii c in
  if ((65 <=? n) && (n <=? 90))%nat then ascii_of_nat (n + 32) else c.

(** [str.lower] *)
Fixpoint lower (s : string) : string :=
  match s with
  | EmptyString => EmptyString
  | String c s' => String (lower_char c) (lower s')
  end.

Fixpoint lstrip (s : string) : string :=
  match s with
  | EmptyString => EmptyString
  | String c s' => if is_space c then lstrip s' else s
  end.

Fixpoint rev_str (s : string) (acc : string) : string :=
  match s with
  | EmptyString => acc
  | String c s' => rev_str s' (String c acc)
  end.

(** [str.strip] *)
Definition strip (s : string) : string :=
  rev_str (lstrip (rev_str (lstrip s) EmptyString)) EmptyString.

(** [re.sub(r"\s+", " ", s)]: every maximal run of whitespace becomes one
    space; [in_ws] says the previous character was part of a run. *)
Fixpoint collapse_ws (in_ws : bool) (s : string) : string :=
  match s with
  | EmptyString => EmptyString
  | String c s' =>
      if is_space c then
        if in_ws then collapse_ws true s' else String " " (collapse_ws true s')
      else String c (collapse_ws false s')
  end.

Definition normalize_text (text : string) : string :=
  collapse_ws false (lower (strip text)).

(** Python's [sub in s]. *)
Fixpoint contains (sub s : string) : bool :=
  prefix sub s ||
  match s with
  | EmptyString => false
  | String _ s' => contains sub s'
  end.

Fixpoint join (sep : string) (l : list string) : string :=
  match l with
  | [] => EmptyString
  | [x] => x
  | x :: l' => x ++ sep ++ join sep l'
  end.

(** [str(n)] for an integer. *)
Definition Z_to_string (z : Z) : string := NilEmpty.string_of_int (Z.to_int z).

(** ** Sorting *)

(** [sorted(set(xs))]: ascending, without duplicates. *)
Fixpoint insert_uniq {A} (cmp : A -> A -> comparison) (x : A) (l : list A)
  : list A :=
  match l with
  | [] => [x]
  | y :: l' =>
      match cmp x y with
      | Lt => x :: l
      | Eq => l
      | Gt => y :: insert_uniq cmp x l'
      end
  end.

Definition sorted_set {A} (cmp : A -> A -> comparison) (l : list A) : list A :=
  fold_right (insert_uniq cmp) [] l.

(** [sorted(xs, key=k, reverse=True)]: Python's sort is stable also with
    [reverse=True], so the result is descending in the key and elements
    with equal keys keep their original order.  [ge x y] is
    [k(x) >= k(y)]; [fold_right] inserts earlier elements last, in front
    of the elements of equal key. *)
Fixpoint insert_desc {A} (ge : A -> A -> bool) (x : A) (l : list A) : list A :=
  match l with
  | [] => [x]
  | y :: l' => if ge x y then x :: l else y :: insert_desc ge x l'
  end.

Definition sort_desc {A} (ge : A -> A -> bool) (l : list A) : list A :=
  fold_right (insert_desc ge) [] l.

(** ** The data model *)

Definition M_REVENUE := "Total Revenue (USD millions)".
Definition M_INCOME := "Net Income (USD millions)".
Definition M_ASSETS := "Total Assets (USD millions)".
Definition M_LIABILITIES := "Total Liabilities (USD millions)".
Definition M_CFO := "Operating Cash Flow (USD millions)".

(** [METRIC_ALIASES], in dict insertion order. *)
Definition METRIC_ALIASES : list (string * string) :=
  [ ("revenue", M_REVENUE);
    ("total revenue", M_REVENUE);
    ("income", M_INCOME);
    ("net income", M_INCOME);
    ("profit", M_INCOME);
    ("assets", M_ASSETS);
    ("total assets", M_ASSETS);
    ("liabilities", M_LIABILITIES);
    ("total liabilities", M_LIABILITIES);
    ("debt", M_LIABILITIES);
    ("cash flow", M_CFO);
    ("operating cash flow", M_CFO);
    ("cfo", M_CFO) ].

(** One cleaned CSV row as built by [load_data]. *)
Record row := mk_row {
  company : string;
  fiscal_year : Z;
  file : string;
  total_revenue : Q;
  net_income : Q;
  total_assets : Q;
  total_liabilities : Q;
  operating_cash_flow : Q
}.

(** [row[metric]] for a metric key; any other key raises [KeyError]. *)
Definition row_metric (r : row) (m : string) : M Q :=
  if m =? M_REVENUE then ret (total_revenue r)
  else if m =? M_INCOME then ret (net_income r)
  else if m =? M_ASSETS then ret (total_assets r)
  else if m =? M_LIABILITIES then ret (total_liabilities r)
  else if m =? M_CFO then ret (operating_cash_flow r)
  else raise KeyError.

Record BotContext := mk_ctx {
  rows : list row;
  companies : list string;
  years : list Z
}.

(** [load_data] after parsing: the companies and the years are
    [sorted({...})] of the rows' fields. *)
Definition load_ctx (rs : list row) : BotContext :=
  {| rows := rs;
     companies := sorted_set String.compare (map company rs);
     years := sorted_set Z.compare (map fiscal_year rs) |}.

(** ** The extractors *)

Definition find_company (query : string) (companies : list string)
  : option string :=
  let q := normalize_text query in
  find (fun c => contains (lower c) q) companies.

(** A match of [20\d{2}] at the head of [s], with its [int] value. *)
Definition match_20xx (s : string) : option Z :=
  match s with
  | String c1 (String c2 (String a (String b _))) =>
      if (c1 =? "2")%char && (c2 =? "0")%char && is_digit a && is_digit b
      then Some (2000 + 10 * digit_val a + digit_val b)%Z
      else None
  | _ => None
  end.

(** [re.search(r"(20\d{2})", s)]: the leftmost match. *)
Fixpoint search_20xx (s : string) : option Z :=
  match s with
  | EmptyString => None
  | String _ s' =>
      match match_20xx s with
      | Some y => Some y
      | None => search_20xx s'
      end
  end.

(** [re.findall(r"20\d{2}", s)]: the non-overlapping matches, left to right. *)
Fixpoint findall_20xx (s : string) : list Z :=
  match s with
  | EmptyString => []
  | String c1 s1 =>
      match s1 with
      | String c2 (String a (String b rest)) =>
          if (c1 =? "2")%char && (c2 =? "0")%char && is_digit a && is_digit b
          then (2000 + 10 * digit_val a + digit_val b)%Z :: findall_20xx rest
          else findall_20xx s1
      | _ => findall_20xx s1
      end
  end.

(** Every occurrence of [20\d{2}] in [s], overlapping ones included: the
    "years" a query mentions, used to state what [find_year] returns. *)
Fixpoint all_20xx (s : string) : list Z :=
  match s with
  | EmptyString => []
  | String _ s' =>
      match match_20xx s with
      | Some y => y :: all_20xx s'
      | None => all_20xx s'
      end
  end.

Definition find_year (query : string) (years : list Z) : option Z :=
  match search_20xx query with
  | Some year => if existsb (Z.eqb year) years then Some year else None
  | None => None
  end.

Definition alias_ge (x y : string * string) : bool :=
  (String.length (fst y) <=? String.length (fst x))%nat.

Definition find_metric (query : string) : option string :=
  let q := normalize_text query in
  match find (fun am => contains (fst am) q) (sort_desc alias_ge METRIC_ALIASES) with
  | Some (_, metric) => Some metric
  | None => None
  end.

(** ** The value formatter *)

(** Round half to even, as the [format] mini-language does. *)
Definition round_half_even (v : Q) : Z :=
  let n := Qnum v in
  let d := Zpos (Qden v) in
  let fl := (n / d)%Z in
  let r := (n mod d)%Z in
  match Z.compare (2 * r) d with
  | Lt => fl
  | Gt => fl + 1
  | Eq => if Z.even fl then fl else fl + 1
  end%Z.

(** ** Binary64 arithmetic

    The result of a float operation: a finite value (its exact rational
    value), an infinity with its sign, or NaN.  The sign of a zero plays
    no part in the code modelled here. *)
Inductive pyfloat := PFin (q : Q) | PInf (neg : bool) | PNaN.

Definition pow2 (e : Z) : Q := Qpower (2 # 1) e.

(** Round an exact result to the nearest binary64 value, ties to even:
    53 significant bits, exponent of the last bit at least -1074
    (subnormals), and infinity when the rounded magnitude reaches
    2^1024. *)
Definition round_double (x : Q) : pyfloat :=
  if Qeq_bool x 0 then PFin 0 else
  let neg := negb (Qle_bool 0 x) in
  let a := Qabs x in
  let e0 := (Z.log2 (Qnum a) - Z.log2 (Zpos (Qden a)) - 53)%Z in
  let e1 := if Qle_bool (pow2 53) (a / pow2 e0) then (e0 + 1)%Z else e0 in
  let e := Z.max e1 (-1074) in
  let r := inject_Z (round_half_even (a / pow2 e)) * pow2 e in
  if Qle_bool (pow2 1024) r then PInf neg
  else PFin (if neg then - r else r).

Definition neg_q (b : Q) : bool := negb (Qle_bool 0 b).

(** [a - b] on two finite floats. *)
Definition pf_sub (a b : Q) : pyfloat := round_double (a - b).

(** Float division [a / b] by a finite float [b]. *)
Definition pf_div (a : pyfloat) (b : Q) : M pyfloat :=
  if Qeq_bool b 0 then raise ZeroDivisionError else
  match a with
  | PFin x => ret (round_double (x / b))
  | PInf n => ret (PInf (xorb n (neg_q b)))
  | PNaN => ret PNaN
  end.

(** Float product [a * b] with a finite float [b]. *)
Definition pf_mul (a : pyfloat) (b : Q) : pyfloat :=
  match a with
  | PFin x => round_double (x * b)
  | PInf n => if Qeq_bool b 0 then PNaN else PInf (xorb n (neg_q b))
  | PNaN => PNaN
  end.

Definition pf_abs (a : pyfloat) : pyfloat :=
  match a with PFin x => PFin (Qabs x) | PInf _ => PInf false | PNaN => PNaN end.

(** [a >= 0] *)
Definition pf_ge0 (a : pyfloat) : bool :=
  match a with PFin x => Qle_bool 0 x | PInf n => negb n | PNaN => false end.

(** The [,] option: a comma between groups of three digits, counted from
    the right.  [group3] works on the reversed digit list. *)
Fixpoint group3 (l : list ascii) : list ascii :=
  match l with
  | a :: b :: c :: ((_ :: _) as rest) => a :: b :: c :: ","%char :: group3 rest
  | _ => l
  end.

Definition group_thousands (digits : string) : string :=
  string_of_list_ascii (rev (group3 (rev (list_ascii_of_string digits)))).

Definition N_to_string (n : N) : string := NilEmpty.string_of_uint (N.to_uint n).

Definition neg_sign (v : Q) : string := if Qle_bool 0 v then "" else "-".

(** [f"{value:,.0f}"]; the sign is the sign of [value], so that a small
    negative value prints as [-0]. *)
Definition fmt_comma0 (v : Q) : string :=
  neg_sign v ++ group_thousands (N_to_string (Z.abs_N (round_half_even v))).

(** [money(value) = f"${value:,.0f}M"] *)
Definition money (value : Q) : string := "$" ++ fmt_comma0 value ++ "M".

(** A float through a format spec: the finite case by [fmt], an
    infinity as [inf] or [-inf], NaN as [nan]. *)
Definition pf_format (fmt : Q -> string) (a : pyfloat) : string :=
  match a with
  | PFin x => fmt x
  | PInf n => (if n then "-" else "") ++ "inf"
  | PNaN => "nan"
  end.

(** [money] of a float result. *)
Definition pf_money (a : pyfloat) : string := "$" ++ pf_format fmt_comma0 a ++ "M".

(** [f"{x:.2f}"] *)
Definition fmt_2f (x : Q) : string :=
  let k := Z.abs_N (round_half_even (x * 100)) in
  let frac := (k mod 100)%N in
  neg_sign x ++ N_to_string (k / 100)%N ++ "."
    ++ (if (frac <? 10)%N then "0" else "") ++ N_to_string frac.

(** ** Row lookup and the dispatcher *)

Definition get_row (ctx : BotContext) (c : string) (year : Z) : option row :=
  find (fun r => (lower (company r) =? lower c) && (fiscal_year r =? year)%Z)
    (rows ctx).

(** [xs[i]] *)
Definition py_index {A} (l : list A) (i : nat) : M A :=
  match nth_error l i with Some x => ret x | None => raise IndexError end.

(** [xs[-1]] *)
Definition py_last {A} (l : list A) : M A :=
  match rev l with x :: _ => ret x | [] => raise IndexError end.

(** [max(xs)] *)
Definition py_max (l : list Z) : M Z :=
  match l with [] => raise ValueError | x :: l' => ret (fold_left Z.max l' x) end.

(** The value of an optional string or int when it is truthy in Python. *)
Definition truthy_str (o : option string) : option string :=
  match o with Some s => if s =? "" then None else Some s | None => None end.
Definition truthy_int (o : option Z) : option Z :=
  match o with Some y => if (y =? 0)%Z then None else Some y | None => None end.

Definition years_str (ctx : BotContext) : string :=
  join ", " (map Z_to_string (years ctx)).

Definition help_text (ctx : BotContext) : string :=
  "Custom Financial Chatbot" ++ nl
  ++ "- Companies: " ++ join ", " (companies ctx) ++ nl
  ++ "- Years: " ++ years_str ctx ++ nl ++ nl
  ++ "Examples:" ++ nl
  ++ "- Apple revenue 2025" ++ nl
  ++ "- compare net income 2024" ++ nl
  ++ "- top operating cash flow 2025" ++ nl
  ++ "- growth of Tesla revenue from 2023 to 2025" ++ nl
  ++ "- Microsoft summary" ++ nl
  ++ "- list companies" ++ nl
  ++ "- list years" ++ nl
  ++ "- exit".

(** [(r, float(r[metric]))] for every row: the sort keys, all computed
    before sorting as [sorted] does. *)
Definition keyed (m : string) (rs : list row) : M (list (row * Q)) :=
  mapM (fun r => let* v := row_metric r m in ret (r, v)) rs.

(** [k(a) >= k(b)] on decorated pairs [(r, k(r))]. *)
Definition key_ge {A} (a b : A * Q) : bool := Qle_bool (snd b) (snd a).

(** [sorted(rs, key=lambda r: float(r[metric]), reverse=True)] *)
Definition sort_by_metric (m : string) (rs : list row) : M (list row) :=
  let* kv := keyed m rs in
  ret (map fst (sort_desc key_ge kv)).

Definition yearly_rows (ctx : BotContext) (year : Z) : list row :=
  filter (fun r => (fiscal_year r =? year)%Z) (rows ctx).

(** Lines 108-115: the ranking branch. *)
Definition handle_top (ctx : BotContext) (q : string) : M string :=
  let guide := "Please specify both metric and year. Example: top revenue in 2025" in
  match truthy_str (find_metric q), truthy_int (find_year q (years ctx)) with
  | Some metric, Some year =>
      let* srt := sort_by_metric metric (yearly_rows ctx year) in
      let* top_row := py_index srt 0 in
      let* v := row_metric top_row metric in
      ret ("Top " ++ metric ++ " in " ++ Z_to_string year ++ ": "
           ++ company top_row ++ " with " ++ money v ++ ".")
  | _, _ => ret guide
  end.

(** Lines 117-127: the comparison branch. *)
Definition handle_compare (ctx : BotContext) (q : string) : M string :=
  let guide := "For compare, include metric and year. Example: compare net income 2024" in
  match truthy_str (find_metric q), truthy_int (find_year q (years ctx)) with
  | Some metric, Some year =>
      let* srt := sort_by_metric metric (yearly_rows ctx year) in
      let* body := mapM (fun r => let* v := row_metric r metric in
                                  ret ("- " ++ company r ++ ": " ++ money v)) srt in
      ret (join nl ((metric ++ " in " ++ Z_to_string year ++ ":") :: body))
  | _, _ => ret guide
  end.

(** Lines 145-153: the change between two rows. *)
Definition growth_report (c metric : string) (y1 y2 : Z) (r1 r2 : row)
  : M string :=
  let* old := row_metric r1 metric in
  let* new := row_metric r2 metric in
  let delta := pf_sub new old in
  let* pct := if Qeq_bool old 0 then ret (PFin 0)
              else let* d := pf_div delta old in ret (pf_mul d 100) in
  let sign := if pf_ge0 delta then "+" else "-" in
  ret (c ++ " " ++ metric ++ " changed from " ++ money old ++ " ("
       ++ Z_to_string y1 ++ ") to " ++ money new ++ " (" ++ Z_to_string y2
       ++ "): " ++ sign ++ pf_money (pf_abs delta) ++ " (" ++ sign
       ++ pf_format fmt_2f (pf_abs pct) ++ "%).").

Definition growth_guide : string :=
  "For growth, include company, metric, and two years. "
  ++ "Example: growth of Tesla revenue from 2023 to 2025".

(** Lines 129-153: the growth branch. *)
Definition handle_growth (ctx : BotContext) (q : string) : M string :=
  let ys := sorted_set Z.compare (findall_20xx q) in
  match truthy_str (find_company q (companies ctx)), truthy_str (find_metric q) with
  | Some c, Some metric =>
      if (List.length ys <? 2)%nat then ret growth_guide else
      let* y1 := py_index ys 0 in
      let* y2 := py_last ys in
      if negb (existsb (Z.eqb y1) (years ctx)) || negb (existsb (Z.eqb y2) (years ctx))
      then ret ("Available years are: " ++ years_str ctx)
      else
        match get_row ctx c y1, get_row ctx c y2 with
        | Some r1, Some r2 => growth_report c metric y1 y2 r1 r2
        | _, _ => ret ("Missing data for " ++ c ++ " in " ++ Z_to_string y1
                       ++ " or " ++ Z_to_string y2 ++ ".")
        end
  | _, _ => ret growth_guide
  end.

Definition not_understood : string :=
  "I couldn't understand that. Type `help` for examples." ++ nl
  ++ "Tip: ask like 'Apple revenue 2025' or 'compare net income 2024'.".

Definition summary_text (c : string) (latest : Z) (r : row) : string :=
  c ++ " summary (" ++ Z_to_string latest ++ "):" ++ nl
  ++ "- Revenue: " ++ money (total_revenue r) ++ nl
  ++ "- Net Income: " ++ money (net_income r) ++ nl
  ++ "- Total Assets: " ++ money (total_assets r) ++ nl
  ++ "- Total Liabilities: " ++ money (total_liabilities r) ++ nl
  ++ "- Operating Cash Flow: " ++ money (operating_cash_flow r).

(** Lines 155-182: point lookup, then summary, then the fallback text. *)
Definition handle_lookup (ctx : BotContext) (q : string) : M string :=
  let company := truthy_str (find_company q (companies ctx)) in
  let year := truthy_int (find_year q (years ctx)) in
  let metric := truthy_str (find_metric q) in
  match company, year, metric with
  | Some c, Some y, Some m =>
      match get_row ctx c y with
      | None => ret ("No data for " ++ c ++ " in " ++ Z_to_string y ++ ".")
      | Some r =>
          let* v := row_metric r m in
          ret (c ++ " " ++ m ++ " in " ++ Z_to_string y ++ ": " ++ money v ++ ".")
      end
  | _, _, _ =>
      match company with
      | Some c =>
          if contains "summary" q || contains "overview" q then
            let* latest := py_max (years ctx) in
            match get_row ctx c latest with
            | None => ret ("No summary available for " ++ c ++ ".")
            | Some r => ret (summary_text c latest r)
            end
          else ret not_understood
      | None => ret not_understood
      end
  end.

(** The intents of lines 99-129, in the order the code tests them. *)
Inductive intent := IHelp | ICompanies | IYears | ITop | ICompare | IGrowth | ILookup.

Definition dispatch (q : string) : intent :=
  if (q =? "help") || (q =? "h") || (q =? "?") then IHelp
  else if contains "list companies" q || (q =? "companies") then ICompanies
  else if contains "list years" q || (q =? "years") then IYears
  else if contains "top" q || contains "highest" q then ITop
  else if contains "compare" q then ICompare
  else if contains "growth" q || contains "change" q then IGrowth
  else ILookup.

Definition handle_query (ctx : BotContext) (query : string) : M string :=
  let q := normalize_text query in
  match dispatch q with
  | IHelp => ret (help_text ctx)
  | ICompanies => ret ("Companies: " ++ join ", " (companies ctx))
  | IYears => ret ("Years: " ++ years_str ctx)
  | ITop => handle_top ctx q
  | ICompare => handle_compare ctx q
  | IGrowth => handle_growth ctx q
  | ILookup => handle_lookup ctx q
  end.

(** ** The interactive loop [main] (lines 202-216)

    Standard input is the list of lines the user types; the end of the
    list is end of file.  The output is the list of texts written to
    standard output, in order ([input] writes its prompt), together with
    the exception that escaped [main], if any.  [KeyboardInterrupt] is
    not modelled. *)

(** Python's [print]: the arguments separated by one space, then a newline. *)
Definition py_print (args : list string) : string := join " " args ++ nl.

Definition intro_line : string :=
  "Financial Chatbot ready. Type `help` for sample questions. Type `exit` to quit.".

Definition prompt : string := "You: ".

(** The [while True] loop of [main]. *)
Fixpoint chat_loop (ctx : BotContext) (inputs : list string)
  : list string * option py_exc :=
  match inputs with
  | [] => ([prompt; py_print [nl ++ "Bot: Bye."]], None)
  | line :: rest =>
      let user := strip line in
      if user =? "" then
        let (out, e) := chat_loop ctx rest in (prompt :: out, e)
      else if (normalize_text user =? "exit") || (normalize_text user =? "quit") then
        ([prompt; py_print ["Bot: Bye."]], None)
      else
        match handle_query ctx user with
        | inl e => ([prompt], Some e)
        | inr answer =>
            let (out, e) := chat_loop ctx rest in
            (prompt :: py_print ["Bot:"; answer] :: out, e)
        end
  end.

(** [main()], from the point where [load_data()] has parsed the rows. *)
Definition main (rs : list row) (inputs : list string) : list string * option py_exc :=
  let ctx := load_ctx rs in
  let (out, e) := chat_loop ctx inputs in (py_print [intro_line] :: out, e).

(** ** Predicates used to state properties *)

Definition starts_space (s : string) : bool :=
  match s with String c _ => is_space c | EmptyString => false end.

Fixpoint ends_space (s : string) : bool :=
  match s with
  | EmptyString => false
  | String c s' => match s' with EmptyString => is_space c | _ => ends_space s' end
  end.

(** Every whitespace character is a space, and none is followed by
    another whitespace character. *)
Fixpoint ws_clean (s : string) : bool :=
  match s with
  | EmptyString => true
  | String c s' =>
      (negb (is_space c) || ((c =? " ")%char && negb (starts_space s'))) && ws_clean s'
  end.

(** [float(r[m])] for a metric key [m]. *)
Definition metric_value (r : row) (m : string) : Q :=
  match row_metric r m with inr v => v | inl _ => 0 end.

(** ** Sample rows *)

Definition apple25 : row :=
  mk_row "Apple" 2025 "apple_2025.pdf" 400000 100000 350000 280000 120000.

Example apple_revenue_2025 :
  handle_query (load_ctx [apple25]) "Apple revenue 2025"
  = ret "Apple Total Revenue (USD millions) in 2025: $400,000M.".
Proof. vm_compute. reflexivity. Qed.

Definition tesla23 : row := mk_row "Tesla" 2023 "tesla_2023.pdf" 100 0 50 30 20.
Definition tesla25 : row := mk_row "Tesla" 2025 "tesla_2025.pdf" 150 (-20) 60 40 10.

Example tesla_growth :
  handle_query (load_ctx [tesla23; tesla25]) "growth of Tesla revenue from 2023 to 2025"
  = ret ("Tesla Total Revenue (USD millions) changed from $100M (2023) to $150M (2025): "
         ++ "+$50M (+50.00%).").
Proof. vm_compute. reflexivity. Qed.

(** A row whose company name is empty. *)
Definition noname25 : row := mk_row "" 2025 "unnamed.pdf" 1 1 1 1 1.

(** * Facts about the building blocks *)

Lemma bind_ret {A B} (a : A) (k : A -> M B) : bind (ret a) k = k a.
Proof. reflexivity. Qed.

Lemma truthy_str_some o s : truthy_str o = Some s -> o = Some s.
Proof. destruct o as [s'|]; simpl; [destruct (s' =? ""); congruence | discriminate]. Qed.

Lemma truthy_int_some o y : truthy_int o = Some y -> o = Some y.
Proof. destruct o as [y'|]; simpl; [destruct (y' =? 0)%Z; congruence | discriminate]. Qed.

(** ** The metric keys *)

(** Every metric [find_metric] returns is a key of every row. *)
Lemma find_metric_key q m :
  find_metric q = Some m -> forall r, exists v, row_metric r m = ret v.
Proof.
  unfold find_metric. destruct (find _ _) as [[a m']|] eqn:E; [|discriminate].
  intros [= <-] r. apply find_some in E as [Hin _].
  vm_compute in Hin.
  repeat destruct Hin as [Hin|Hin]; try contradiction;
    injection Hin as <- <-; eexists; reflexivity.
Qed.

Lemma mapM_ok {A B} (f : A -> M B) l :
  (forall x, In x l -> exists y, f x = ret y) -> exists ys, mapM f l = ret ys.
Proof.
  induction l as [|x l IH]; intros H; [eexists; reflexivity|].
  destruct (H x (or_introl eq_refl)) as [y Hy].
  destruct IH as [ys Hys]; [intros; apply H; right; assumption|].
  exists (y :: ys). simpl. rewrite Hy, bind_ret, Hys. reflexivity.
Qed.

Lemma keyed_ok m rs :
  (forall r, exists v, row_metric r m = ret v) ->
  exists kv, keyed m rs = ret kv /\ map fst kv = rs /\
             Forall (fun p => row_metric (fst p) m = ret (snd p)) kv.
Proof.
  intros Hk. induction rs as [|r rs IH].
  - exists []. repeat split; constructor.
  - destruct (Hk r) as [v Hv]. destruct IH as [kv [E [Hf Hall]]].
    exists ((r, v) :: kv). unfold keyed in *. simpl.
    rewrite Hv, bind_ret, bind_ret, E, bind_ret.
    repeat split; [simpl; congruence | constructor; assumption].
Qed.

(** ** Sorting keeps the elements *)

Lemma insert_desc_in {A} (ge : A -> A -> bool) x l y :
  In y (insert_desc ge x l) <-> y = x \/ In y l.
Proof.
  induction l as [|z l IH]; simpl; [split; intros [H|[]]; auto|].
  destruct (ge x z); simpl; rewrite ?IH; intuition.
Qed.

Lemma sort_desc_in {A} (ge : A -> A -> bool) l y :
  In y (sort_desc ge l) <-> In y l.
Proof.
  induction l as [|x l IH]; simpl; [tauto|].
  rewrite insert_desc_in, IH. intuition.
Qed.

Lemma sort_by_metric_ok m rs :
  (forall r, exists v, row_metric r m = ret v) ->
  exists srt, sort_by_metric m rs = ret srt /\ (forall r, In r srt <-> In r rs).
Proof.
  intros Hk. destruct (keyed_ok m rs Hk) as [kv [E [Hf _]]].
  eexists. unfold sort_by_metric. rewrite E, bind_ret. split; [reflexivity|].
  intros r. rewrite <- Hf, !in_map_iff.
  split; intros [p [Hp Hin]]; exists p; rewrite ?sort_desc_in in *; auto.
Qed.

Lemma insert_uniq_in {A} (cmp : A -> A -> comparison) x l y :
  In y (insert_uniq cmp x l) -> y = x \/ In y l.
Proof.
  induction l as [|z l IH]; simpl; [intros [H|[]]; auto|].
  destruct (cmp x z); simpl; intuition.
Qed.

Lemma sorted_set_in {A} (cmp : A -> A -> comparison) l y :
  In y (sorted_set cmp l) -> In y l.
Proof.
  induction l as [|x l IH]; simpl; [tauto|].
  intros H. apply insert_uniq_in in H. intuition.
Qed.

Lemma insert_uniq_nonempty {A} (cmp : A -> A -> comparison) x l :
  insert_uniq cmp x l <> [].
Proof. destruct l as [|z l]; simpl; [|destruct (cmp x z)]; discriminate. Qed.

Lemma sorted_set_nonempty {A} (cmp : A -> A -> comparison) l :
  l <> [] -> sorted_set cmp l <> [].
Proof. destruct l as [|x l]; [tauto|intros _; apply insert_uniq_nonempty]. Qed.

(** ** The context built by [load_data] *)

Lemma years_of_load rs y :
  In y (years (load_ctx rs)) -> exists r, In r rs /\ fiscal_year r = y.
Proof.
  simpl. intros H. apply sorted_set_in, in_map_iff in H as [r [<- Hr]]. eauto.
Qed.

Lemma companies_of_load rs c :
  In c (companies (load_ctx rs)) -> exists r, In r rs /\ company r = c.
Proof.
  simpl. intros H. apply sorted_set_in, in_map_iff in H as [r [<- Hr]]. eauto.
Qed.

Lemma find_year_in q ys y : find_year q ys = Some y -> In y ys.
Proof.
  unfold find_year. destruct (search_20xx q) as [z|]; [|discriminate].
  destruct (existsb (Z.eqb z) ys) eqn:E; [|discriminate]. intros [= <-].
  apply existsb_exists in E as [x [Hx Heq]]. apply Z.eqb_eq in Heq. subst. assumption.
Qed.

Lemma find_company_in q cs c : find_company q cs = Some c -> In c cs.
Proof. unfold find_company. intros H. apply find_some in H. tauto. Qed.

Lemma yearly_rows_in ctx y r :
  In r (rows ctx) -> fiscal_year r = y -> In r (yearly_rows ctx y).
Proof.
  intros Hin Hy. unfold yearly_rows. apply filter_In. split; [assumption|].
  apply Z.eqb_eq. assumption.
Qed.

(** ** Every branch of the dispatcher returns a string *)

Lemma handle_top_ok rs q : exists s, handle_top (load_ctx rs) q = ret s.
Proof.
  unfold handle_top.
  destruct (truthy_str (find_metric q)) as [m|] eqn:Hm; [|eexists; reflexivity].
  destruct (truthy_int (find_year q (years (load_ctx rs)))) as [y|] eqn:Hy;
    [|eexists; reflexivity].
  apply truthy_str_some in Hm. apply truthy_int_some in Hy.
  pose proof (find_metric_key q m Hm) as Hk.
  destruct (sort_by_metric_ok m (yearly_rows (load_ctx rs) y) Hk) as [srt [Hs Hin]].
  rewrite Hs, bind_ret.
  destruct (years_of_load rs y (find_year_in _ _ _ Hy)) as [r [Hr Hry]].
  destruct srt as [|top rest].
  - exfalso. apply (proj2 (Hin r)). apply yearly_rows_in; assumption.
  - cbn [py_index nth_error bind ret].
    destruct (Hk top) as [v Hv]. rewrite Hv, bind_ret. eexists; reflexivity.
Qed.

Lemma handle_compare_ok ctx q : exists s, handle_compare ctx q = ret s.
Proof.
  unfold handle_compare.
  destruct (truthy_str (find_metric q)) as [m|] eqn:Hm; [|eexists; reflexivity].
  destruct (truthy_int (find_year q (years ctx))) as [y|]; [|eexists; reflexivity].
  apply truthy_str_some in Hm.
  pose proof (find_metric_key q m Hm) as Hk.
  destruct (sort_by_metric_ok m (yearly_rows ctx y) Hk) as [srt [Hs _]].
  rewrite Hs, bind_ret.
  edestruct (mapM_ok (fun r => let* v := row_metric r m in
                               ret ("- " ++ company r ++ ": " ++ money v)) srt)
    as [body Hb]; [|rewrite Hb, bind_ret; eexists; reflexivity].
  intros r _. destruct (Hk r) as [v Hv]. rewrite Hv, bind_ret. eexists; reflexivity.
Qed.

Lemma growth_report_ok c m y1 y2 r1 r2 :
  (forall r, exists v, row_metric r m = ret v) ->
  exists s, growth_report c m y1 y2 r1 r2 = ret s.
Proof.
  intros Hk. unfold growth_report.
  destruct (Hk r1) as [old Ho]. destruct (Hk r2) as [new Hn].
  rewrite Ho, bind_ret, Hn, bind_ret.
  destruct (Qeq_bool old 0) eqn:E.
  - rewrite bind_ret. eexists; reflexivity.
  - unfold pf_div. rewrite E. destruct (pf_sub new old); rewrite !bind_ret;
    eexists; reflexivity.
Qed.

Lemma handle_growth_ok ctx q : exists s, handle_growth ctx q = ret s.
Proof.
  unfold handle_growth.
  set (ys := sorted_set Z.compare (findall_20xx q)).
  destruct (truthy_str (find_company q (companies ctx))) as [c|];
    [|eexists; reflexivity].
  destruct (truthy_str (find_metric q)) as [m|] eqn:Hm; [|eexists; reflexivity].
  apply truthy_str_some in Hm. pose proof (find_metric_key q m Hm) as Hk.
  destruct (List.length ys <? 2)%nat eqn:L; [eexists; reflexivity|].
  destruct ys as [|y1 [|y ys']]; try discriminate.
  cbn [py_index nth_error bind ret]. unfold py_last.
  destruct (rev (y1 :: y :: ys')) as [|y2 rest] eqn:R.
  - exfalso. apply (f_equal (@List.length Z)) in R.
    rewrite length_rev in R. discriminate.
  - rewrite bind_ret.
    destruct (negb _ || negb _); [eexists; reflexivity|].
    destruct (get_row ctx c y1) as [r1|]; [|eexists; reflexivity].
    destruct (get_row ctx c y2) as [r2|]; [|eexists; reflexivity].
    apply growth_report_ok; assumption.
Qed.

Lemma py_max_ok l : l <> [] -> exists x, py_max l = ret x.
Proof. destruct l; [tauto|eexists; reflexivity]. Qed.

Lemma handle_lookup_ok rs q : exists s, handle_lookup (load_ctx rs) q = ret s.
Proof.
  unfold handle_lookup.
  destruct (truthy_str (find_company q (companies (load_ctx rs)))) as [c|] eqn:Hc;
    [|eexists; reflexivity].
  destruct (truthy_int (find_year q (years (load_ctx rs)))) as [y|];
  destruct (truthy_str (find_metric q)) as [m|] eqn:Hm;
  (* point lookup *)
  try (destruct (get_row (load_ctx rs) c y) as [r|]; [|eexists; reflexivity];
       apply truthy_str_some in Hm;
       destruct (find_metric_key q m Hm r) as [v Hv];
       rewrite Hv, bind_ret; eexists; reflexivity);
  (* summary *)
  (destruct (contains "summary" q || contains "overview" q); [|eexists; reflexivity];
   apply truthy_str_some, find_company_in, companies_of_load in Hc as [r0 [Hr0 _]];
   destruct (py_max_ok (years (load_ctx rs))) as [latest Hl];
   [ simpl; apply sorted_set_nonempty; destruct rs; [contradiction|discriminate]
   | rewrite Hl, bind_ret; destruct (get_row _ _ _); eexists; reflexivity ]).
Qed.

(** ** The head of the stable descending sort *)

(** The first element of [sorted(..., reverse=True)] is the first element,
    in the original order, whose key is maximal. *)
Lemma sort_desc_head {A} (l : list (A * Q)) :
  l <> [] ->
  exists pre x post rest,
    l = (pre ++ x :: post)%list /\
    (forall y, In y pre -> snd y < snd x) /\
    (forall y, In y post -> snd y <= snd x) /\
    sort_desc key_ge l = x :: rest.
Proof.
  induction l as [|a l IH]; [tauto|intros _].
  destruct l as [|b l].
  - exists [], a, [], []. repeat split; simpl; tauto.
  - destruct IH as [pre [x [post [rest [E [Hpre [Hpost Hs]]]]]]]; [discriminate|].
    change (sort_desc key_ge (a :: b :: l))
      with (insert_desc key_ge a (sort_desc key_ge (b :: l))).
    rewrite Hs. simpl insert_desc. unfold key_ge at 1.
    destruct (Qle_bool (snd x) (snd a)) eqn:G.
    + apply Qle_bool_iff in G.
      exists [], a, (b :: l), (x :: rest). repeat split; simpl; try tauto.
      intros y Hy. change (In y (b :: l)) in Hy. rewrite E in Hy. apply in_app_or in Hy as [Hy|[<-|Hy]].
      * apply Qlt_le_weak, (Qlt_le_trans _ (snd x)); auto.
      * assumption.
      * apply (Qle_trans _ (snd x)); auto.
    + assert (Hlt : snd a < snd x).
      { apply Qnot_le_lt. intros C. apply Qle_bool_iff in C. congruence. }
      exists (a :: pre), x, post, (insert_desc key_ge a rest).
      repeat split.
      * rewrite E. reflexivity.
      * intros y [<-|Hy]; auto.
      * assumption.
Qed.

(** ** Membership in [sorted(set(...))] and first matches *)

Lemma insert_uniq_in_iff {A} (cmp : A -> A -> comparison) x l y :
  (forall a b, cmp a b = Eq -> a = b) ->
  In y (insert_uniq cmp x l) <-> y = x \/ In y l.
Proof.
  intros Heq. induction l as [|z l IH]; simpl; [split; intros [H|[]]; auto|].
  destruct (cmp x z) eqn:C; simpl; rewrite ?IH;
    [apply Heq in C; subst| |]; split; intros H; intuition congruence.
Qed.

Lemma sorted_set_in_iff {A} (cmp : A -> A -> comparison) l y :
  (forall a b, cmp a b = Eq -> a = b) ->
  In y (sorted_set cmp l) <-> In y l.
Proof.
  intros Heq. induction l as [|x l IH]; simpl; [tauto|].
  rewrite insert_uniq_in_iff, IH by assumption. intuition.
Qed.

Lemma company_in_load rs r : In r rs -> In (company r) (companies (load_ctx rs)).
Proof.
  intros H. simpl. apply sorted_set_in_iff; [apply String.compare_eq_iff|].
  apply in_map. assumption.
Qed.

Lemma year_in_load rs r : In r rs -> In (fiscal_year r) (years (load_ctx rs)).
Proof.
  intros H. simpl. apply sorted_set_in_iff; [apply Z.compare_eq|].
  apply in_map. assumption.
Qed.

Lemma find_app_first {A} (f : A -> bool) l1 x l2 :
  (forall y, In y l1 -> f y = false) -> f x = true ->
  find f (l1 ++ x :: l2) = Some x.
Proof.
  intros H1 Hx. induction l1 as [|y l1 IH]; simpl; [rewrite Hx; reflexivity|].
  rewrite (H1 y (or_introl eq_refl)). apply IH. intros z Hz. apply H1. right; assumption.
Qed.

Lemma find_year_member q ys y :
  search_20xx q = Some y -> In y ys -> find_year q ys = Some y.
Proof.
  intros Hs Hin. unfold find_year. rewrite Hs.
  replace (existsb (Z.eqb y) ys) with true; [reflexivity|].
  symmetry. apply existsb_exists. exists y. split; [assumption|apply Z.eqb_refl].
Qed.

(** ** The alias table in scan order *)

(** [sorted(METRIC_ALIASES.items(), key=len(alias), reverse=True)]. *)
Lemma sorted_aliases :
  sort_desc alias_ge METRIC_ALIASES =
  [ ("operating cash flow", M_CFO);
    ("total liabilities", M_LIABILITIES);
    ("total revenue", M_REVENUE);
    ("total assets", M_ASSETS);
    ("liabilities", M_LIABILITIES);
    ("net income", M_INCOME);
    ("cash flow", M_CFO);
    ("revenue", M_REVENUE);
    ("income", M_INCOME);
    ("profit", M_INCOME);
    ("assets", M_ASSETS);
    ("debt", M_LIABILITIES);
    ("cfo", M_CFO) ].
Proof. reflexivity. Qed.

Definition alias_longer (x y : string * string) : Prop :=
  (String.length (fst y) <= String.length (fst x))%nat.

Lemma sorted_aliases_desc :
  StronglySorted alias_longer (sort_desc alias_ge METRIC_ALIASES).
Proof.
  rewrite sorted_aliases.
  repeat (apply SSorted_cons;
          [|repeat (apply Forall_cons; [unfold alias_longer; simpl; lia|]);
            apply Forall_nil]).
  apply SSorted_nil.
Qed.

(** The first hit of a scan over a list sorted by decreasing length is at
    least as long as every other hit. *)
Lemma find_longest (f : string * string -> bool) l a a' :
  StronglySorted alias_longer l ->
  find f l = Some a' -> In a l -> f a = true -> alias_longer a' a.
Proof.
  intros Hs. induction Hs as [|b l Hs IH Hall]; [discriminate|].
  simpl. destruct (f b) eqn:Fb.
  - intros [= <-] [<-|Ha] _; [unfold alias_longer; lia|].
    rewrite Forall_forall in Hall. apply Hall, Ha.
  - intros Hf [<-|Ha] Fa; [congruence|]. apply IH; assumption.
Qed.

(** ** [sorted(set(...))] of integers is strictly increasing *)

Lemma insert_uniq_sorted x l :
  StronglySorted Z.lt l -> StronglySorted Z.lt (insert_uniq Z.compare x l).
Proof.
  induction 1 as [|z l Hs IH Hall]; simpl; [repeat constructor|].
  destruct (Z.compare x z) eqn:C.
  - constructor; assumption.
  - apply Z.compare_lt_iff in C. constructor; [constructor; assumption|].
    constructor; [assumption|]. rewrite Forall_forall in *.
    intros w Hw. apply (Z.lt_trans _ z); auto.
  - apply Z.compare_gt_iff in C. constructor; [assumption|].
    rewrite Forall_forall in *. intros w Hw.
    apply insert_uniq_in in Hw as [->|Hw]; auto.
Qed.

Lemma sorted_set_sorted l : StronglySorted Z.lt (sorted_set Z.compare l).
Proof.
  induction l as [|x l IH]; simpl; [constructor|]. apply insert_uniq_sorted, IH.
Qed.

Lemma sorted_last {A} (R : A -> A -> Prop) l z :
  StronglySorted R (l ++ [z])%list -> forall t, In t l -> R t z.
Proof.
  induction l as [|x l IH]; simpl; [tauto|].
  intros Hs t [<-|Ht]; inversion Hs as [|? ? Hs' Hall]; subst.
  - rewrite Forall_forall in Hall. apply Hall, in_or_app. right; left; reflexivity.
  - apply IH; assumption.
Qed.

Lemma two_distinct_length {A} (l : list A) a b :
  In a l -> In b l -> a <> b -> (2 <= List.length l)%nat.
Proof.
  destruct l as [|x [|y l]]; simpl; try tauto.
  - intros [<-|[]] [<-|[]]; tauto.
  - intros; lia.
Qed.

(** ** Case and whitespace *)

Lemma is_space_lower c : is_space (lower_char c) = is_space c.
Proof. destruct c as [[] [] [] [] [] [] [] []]; reflexivity. Qed.

Lemma lower_lstrip s : lower (lstrip s) = lstrip (lower s).
Proof.
  induction s as [|c s IH]; [reflexivity|]. simpl.
  rewrite is_space_lower. destruct (is_space c); [exact IH|reflexivity].
Qed.

Lemma lower_rev_str s acc : lower (rev_str s acc) = rev_str (lower s) (lower acc).
Proof. revert acc. induction s as [|c s IH]; intros acc; [reflexivity|]. apply IH. Qed.

Lemma lower_strip s : lower (strip s) = strip (lower s).
Proof.
  unfold strip. rewrite lower_rev_str, lower_lstrip, lower_rev_str, lower_lstrip.
  reflexivity.
Qed.

(** [normalize_text] sees its argument only through [lower]. *)
Lemma normalize_text_lower s : normalize_text s = collapse_ws false (strip (lower s)).
Proof. unfold normalize_text. rewrite lower_strip. reflexivity. Qed.

Lemma prefix_refl s : prefix s s = true.
Proof.
  induction s as [|c s IH]; [reflexivity|]. simpl.
  destruct (ascii_dec c c); [exact IH|contradiction].
Qed.

Lemma contains_refl s : contains s s = true.
Proof. destruct s as [|a s]; [reflexivity|]. cbn [contains]. rewrite prefix_refl. reflexivity. Qed.

(** ** Year tokens *)

(** A year from 2000 to 2099 printed by [str] is a match of [20\d{2}]. *)
Lemma year_string_match Y s :
  (2000 <= Y <= 2099)%Z -> match_20xx (Z_to_string Y ++ s) = Some Y.
Proof.
  intros H. replace Y with (2000 + Z.of_nat (Z.to_nat (Y - 2000)))%Z by lia.
  assert (Hn : (Z.to_nat (Y - 2000) < 100)%nat) by lia.
  generalize (Z.to_nat (Y - 2000)) Hn. clear. intros n Hn.
  do 100 (destruct n as [|n]; [vm_compute; reflexivity|]). lia.
Qed.

Lemma prefix_app p s : prefix p s = true -> exists rest, s = p ++ rest.
Proof.
  revert s. induction p as [|a p IH]; intros s H; [exists s; reflexivity|].
  destruct s as [|b s]; [discriminate|]. simpl in H.
  destruct (ascii_dec a b) as [<-|]; [|discriminate].
  destruct (IH s H) as [rest ->]. exists rest. reflexivity.
Qed.

(** When every [20xx] occurrence of [q] is [Y] and [Y] occurs, the leftmost
    match is [Y]. *)
Lemma search_20xx_unique Y q :
  (2000 <= Y <= 2099)%Z ->
  contains (Z_to_string Y) q = true ->
  (forall z, In z (all_20xx q) -> z = Y) ->
  search_20xx q = Some Y.
Proof.
  intros HY. induction q as [|c q IH]; intros Hc Hall.
  - cbn [contains] in Hc. rewrite orb_false_r in Hc.
    apply prefix_app in Hc as [rest Hr].
    pose proof (year_string_match Y rest HY) as M. rewrite <- Hr in M. discriminate.
  - cbn [search_20xx]. cbn [all_20xx] in Hall.
    destruct (match_20xx (String c q)) as [y|] eqn:M.
    + f_equal. apply Hall. left; reflexivity.
    + cbn [contains] in Hc. apply orb_true_iff in Hc as [Hp|Hc].
      * apply prefix_app in Hp as [rest Hr].
        pose proof (year_string_match Y rest HY) as M'. rewrite <- Hr in M'. congruence.
      * apply IH; assumption.
Qed.

(** ** Rounding and digit grouping *)

Lemma Qminus_inject_Z v k :
  v - inject_Z k == Qmake (Qnum v - k * Zpos (Qden v)) (Qden v).
Proof.
  destruct v as [n d]. unfold Qeq, Qminus, Qplus, Qopp, inject_Z. simpl. nia.
Qed.

(** [round_half_even v] is a nearest integer to [v]. *)
Lemma round_half_even_nearest v :
  Qabs (v - inject_Z (round_half_even v)) <= 1 # 2.
Proof.
  rewrite Qminus_inject_Z. destruct v as [n d].
  unfold round_half_even, Qabs, Qle. cbn [Qnum Qden].
  pose proof (Z.div_mod n (Zpos d) ltac:(lia)) as Hdm.
  pose proof (Z.mod_pos_bound n (Zpos d) ltac:(lia)) as Hb.
  set (fl := (n / Zpos d)%Z) in *. set (r := (n mod Zpos d)%Z) in *.
  destruct (Z.compare_spec (2 * r) (Zpos d)) as [E|E|E];
    [destruct (Z.even fl)|..]; nia.
Qed.

Lemma string_of_list_ascii_app l1 l2 :
  string_of_list_ascii (l1 ++ l2) = string_of_list_ascii l1 ++ string_of_list_ascii l2.
Proof. induction l1 as [|a l1 IH]; simpl; [reflexivity|]. rewrite IH. reflexivity. Qed.

(** Up to three digits get no separator; otherwise the last three digits
    are split off by a comma and the rest is grouped the same way. *)
Lemma group_thousands_short l :
  (List.length l <= 3)%nat ->
  group_thousands (string_of_list_ascii l) = string_of_list_ascii l.
Proof.
  intros H. unfold group_thousands. rewrite list_ascii_of_string_of_list_ascii.
  destruct l as [|a [|b [|c [|d l]]]]; simpl in H; try lia; reflexivity.
Qed.

Lemma group_thousands_step l x y z :
  l <> [] ->
  group_thousands (string_of_list_ascii (l ++ [x; y; z])%list)
  = group_thousands (string_of_list_ascii l) ++ "," ++ string_of_list_ascii [x; y; z].
Proof.
  intros H. unfold group_thousands. rewrite !list_ascii_of_string_of_list_ascii.
  rewrite rev_app_distr. simpl rev at 1.
  destruct (rev l) as [|w ws] eqn:R; [apply (f_equal (@rev ascii)) in R;
    rewrite rev_involutive in R; contradiction|].
  cbn [app group3 rev]. rewrite <- !app_assoc, string_of_list_ascii_app. reflexivity.
Qed.

(** ** The latest year *)

Lemma fold_max_spec l acc :
  (fold_left Z.max l acc = acc \/ In (fold_left Z.max l acc) l) /\
  (acc <= fold_left Z.max l acc)%Z /\
  (forall y, In y l -> (y <= fold_left Z.max l acc)%Z).
Proof.
  revert acc. induction l as [|x l IH]; intros acc; cbn [fold_left].
  - split; [left; reflexivity|split; [lia|intros y []]].
  - destruct (IH (Z.max acc x)) as [Hin [Hle Hall]]. split; [|split].
    + destruct Hin as [E|E]; [|right; right; exact E]. rewrite E.
      destruct (Z.max_spec acc x) as [[_ ->]|[_ ->]];
        [right; left; reflexivity|left; reflexivity].
    + lia.
    + intros y [<-|Hy]; [lia|auto].
Qed.

Lemma py_max_spec l :
  l <> [] ->
  exists latest, py_max l = ret latest /\ In latest l /\
                 forall y, In y l -> (y <= latest)%Z.
Proof.
  destruct l as [|x l]; [tauto|intros _].
  destruct (fold_max_spec l x) as [Hin [Hle Hall]].
  exists (fold_left Z.max l x). split; [reflexivity|]. split.
  - destruct Hin as [E|E]; [rewrite E; left; reflexivity|right; assumption].
  - intros y [<-|Hy]; auto.
Qed.

(** * Facts about strings, lookups, sorting and the loop *)

(** ** Strings: append and reversal *)

Lemma str_app_assoc (a b c : string) : (a ++ b) ++ c = a ++ (b ++ c).
Proof. induction a as [|x a IH]; simpl; [reflexivity|rewrite IH; reflexivity]. Qed.

Lemma str_app_nil (a : string) : a ++ "" = a.
Proof. induction a as [|x a IH]; simpl; [reflexivity|rewrite IH; reflexivity]. Qed.

Lemma rev_str_rev_str s acc acc' :
  rev_str (rev_str s acc) acc' = rev_str acc (s ++ acc').
Proof. revert acc. induction s as [|c s IH]; intros acc; simpl; [reflexivity|]. apply IH. Qed.

Lemma rev_str_involutive s : rev_str (rev_str s "") "" = s.
Proof. rewrite rev_str_rev_str. apply str_app_nil. Qed.

Lemma rev_str_acc s acc : rev_str s acc = rev_str s "" ++ acc.
Proof.
  revert acc. induction s as [|c s IH]; intros acc; simpl; [reflexivity|].
  rewrite (IH (String c acc)), (IH (String c "")), str_app_assoc. reflexivity.
Qed.

Lemma starts_space_app x y : x <> "" -> starts_space (x ++ y) = starts_space x.
Proof. destruct x; [congruence|reflexivity]. Qed.

Lemma ends_space_cons c t : t <> "" -> ends_space (String c t) = ends_space t.
Proof. destruct t; [congruence|reflexivity]. Qed.

Lemma starts_space_rev s : starts_space (rev_str s "") = ends_space s.
Proof.
  induction s as [|c s IH]; [reflexivity|]. cbn [rev_str]. rewrite rev_str_acc.
  destruct s as [|d s']; [reflexivity|].
  assert (Hne : rev_str (String d s') "" <> "").
  { cbn [rev_str]. rewrite rev_str_acc. destruct (rev_str s' ""); discriminate. }
  rewrite starts_space_app by exact Hne. rewrite IH. reflexivity.
Qed.

Lemma ends_space_rev s : ends_space (rev_str s "") = starts_space s.
Proof.
  rewrite <- (starts_space_rev (rev_str s "")), rev_str_involutive. reflexivity.
Qed.

(** ** [str.strip] *)

Lemma lstrip_starts s : starts_space (lstrip s) = false.
Proof.
  induction s as [|c s IH]; simpl; [reflexivity|].
  destruct (is_space c) eqn:E; [exact IH|exact E].
Qed.

Lemma lstrip_ends s : lstrip s = "" \/ ends_space (lstrip s) = ends_space s.
Proof.
  induction s as [|c s IH]; [left; reflexivity|]. cbn [lstrip].
  destruct (is_space c); [|right; reflexivity].
  destruct IH as [IH|IH]; [left; exact IH|].
  destruct s as [|d s']; [left; reflexivity|]. right. rewrite IH. reflexivity.
Qed.

Lemma strip_starts s : starts_space (strip s) = false.
Proof.
  unfold strip. rewrite starts_space_rev.
  destruct (lstrip_ends (rev_str (lstrip s) "")) as [E|E]; rewrite E; [reflexivity|].
  rewrite ends_space_rev. apply lstrip_starts.
Qed.

Lemma strip_ends s : ends_space (strip s) = false.
Proof. unfold strip. rewrite ends_space_rev. apply lstrip_starts. Qed.

Lemma lstrip_id s : starts_space s = false -> lstrip s = s.
Proof. destruct s as [|c s]; simpl; [reflexivity|intros ->; reflexivity]. Qed.

Lemma strip_id s : starts_space s = false -> ends_space s = false -> strip s = s.
Proof.
  intros Hs He. unfold strip. rewrite (lstrip_id s Hs).
  rewrite (lstrip_id (rev_str s "")) by (rewrite starts_space_rev; exact He).
  apply rev_str_involutive.
Qed.

Lemma strip_strip s : strip (strip s) = strip s.
Proof. apply strip_id; [apply strip_starts|apply strip_ends]. Qed.

(** ** [str.lower] *)

Lemma lower_char_idem c : lower_char (lower_char c) = lower_char c.
Proof. destruct c as [[] [] [] [] [] [] [] []]; reflexivity. Qed.

Lemma lower_idem s : lower (lower s) = lower s.
Proof. induction s as [|c s IH]; simpl; [reflexivity|]. rewrite lower_char_idem, IH. reflexivity. Qed.

Lemma starts_space_lower s : starts_space (lower s) = starts_space s.
Proof. destruct s as [|c s]; simpl; [reflexivity|apply is_space_lower]. Qed.

Lemma ends_space_lower s : ends_space (lower s) = ends_space s.
Proof.
  induction s as [|c s IH]; [reflexivity|].
  destruct s as [|d s']; [apply is_space_lower|]. exact IH.
Qed.

(** ** [re.sub(r"\s+", " ", ...)] *)

Lemma lower_collapse b s : lower (collapse_ws b s) = collapse_ws b (lower s).
Proof.
  revert b. induction s as [|c s IH]; intros b; [reflexivity|].
  cbn [lower collapse_ws]. rewrite is_space_lower.
  destruct (is_space c), b; cbn [lower]; rewrite ?IH; reflexivity.
Qed.

Lemma collapse_true_starts s : starts_space (collapse_ws true s) = false.
Proof.
  induction s as [|c s IH]; simpl; [reflexivity|].
  destruct (is_space c) eqn:E; [exact IH|exact E].
Qed.

Lemma collapse_clean b s : ws_clean (collapse_ws b s) = true.
Proof.
  revert b. induction s as [|c s IH]; intros b; [reflexivity|].
  cbn [collapse_ws]. destruct (is_space c) eqn:E; [destruct b|].
  - apply IH.
  - cbn [ws_clean]. rewrite collapse_true_starts, IH. reflexivity.
  - cbn [ws_clean]. rewrite E, IH. reflexivity.
Qed.

Lemma collapse_starts s : starts_space s = false -> starts_space (collapse_ws false s) = false.
Proof. destruct s as [|c s]; simpl; [reflexivity|]. intros E. rewrite E. exact E. Qed.

Lemma collapse_ends b s :
  ends_space s = false ->
  ends_space (collapse_ws b s) = false /\ (s <> "" -> collapse_ws b s <> "").
Proof.
  revert b. induction s as [|c s IH]; intros b He; [split; [reflexivity|congruence]|].
  destruct s as [|d s'].
  - cbn in He. cbn [collapse_ws]. rewrite He. split; [exact He|discriminate].
  - assert (He' : ends_space (String d s') = false) by exact He.
    assert (Hne : String d s' <> "") by discriminate.
    remember (String d s') as t eqn:Et. clear Et.
    cbn [collapse_ws]. destruct (is_space c); [destruct b|].
    + destruct (IH true He') as [H1 H2]. split; [exact H1|intros _; apply H2, Hne].
    + destruct (IH true He') as [H1 H2]. rewrite ends_space_cons by auto.
      split; [exact H1|discriminate].
    + destruct (IH false He') as [H1 H2]. rewrite ends_space_cons by auto.
      split; [exact H1|discriminate].
Qed.

Lemma collapse_id s :
  ws_clean s = true ->
  collapse_ws false s = s /\ (starts_space s = false -> collapse_ws true s = s).
Proof.
  induction s as [|c s IH]; [split; reflexivity|].
  cbn [ws_clean]. intros H. apply andb_true_iff in H as [Hc Hs].
  destruct (IH Hs) as [IH1 IH2]. cbn [collapse_ws starts_space].
  destruct (is_space c) eqn:E.
  - cbn in Hc. apply andb_true_iff in Hc as [Hc Hn].
    apply Ascii.eqb_eq in Hc. subst c. apply negb_true_iff in Hn.
    rewrite (IH2 Hn). split; [reflexivity|discriminate].
  - rewrite IH1. split; reflexivity.
Qed.

(** ** [normalize_text] *)

Lemma normalize_shape s :
  lower (normalize_text s) = normalize_text s /\
  ws_clean (normalize_text s) = true /\
  starts_space (normalize_text s) = false /\
  ends_space (normalize_text s) = false.
Proof.
  unfold normalize_text. split; [|split; [|split]].
  - rewrite lower_collapse, lower_idem. reflexivity.
  - apply collapse_clean.
  - apply collapse_starts. rewrite starts_space_lower. apply strip_starts.
  - apply collapse_ends. rewrite ends_space_lower. apply strip_ends.
Qed.

Lemma normalize_idem s : normalize_text (normalize_text s) = normalize_text s.
Proof.
  destruct (normalize_shape s) as [Hl [Hc [Hs He]]].
  unfold normalize_text at 1. rewrite strip_id, Hl by assumption.
  apply (collapse_id _ Hc).
Qed.

Lemma normalize_strip s : normalize_text (strip s) = normalize_text s.
Proof. unfold normalize_text. rewrite strip_strip. reflexivity. Qed.

Lemma normalize_lower s : normalize_text (lower s) = normalize_text s.
Proof. rewrite !normalize_text_lower, lower_idem. reflexivity. Qed.

(** ** First matches of [find] *)

Lemma find_first {A} (f : A -> bool) l x :
  find f l = Some x ->
  exists l1 l2, l = (l1 ++ x :: l2)%list /\ f x = true /\ forall y, In y l1 -> f y = false.
Proof.
  induction l as [|y l IH]; simpl; [discriminate|].
  destruct (f y) eqn:F.
  - intros [= <-]. exists [], l. repeat split; [exact F|intros ? []].
  - intros H. destruct (IH H) as [l1 [l2 [E [Fx Hl1]]]].
    exists (y :: l1), l2. split; [rewrite E; reflexivity|]. split; [exact Fx|].
    intros z [<-|Hz]; auto.
Qed.

Lemma find_none_iff {A} (f : A -> bool) l :
  find f l = None <-> forall x, In x l -> f x = false.
Proof.
  split; [intros H x Hx; apply (find_none f l H x Hx)|].
  induction l as [|y l IH]; intros H; simpl; [reflexivity|].
  rewrite (H y (or_introl eq_refl)). apply IH. intros x Hx. apply H. right; exact Hx.
Qed.

(** ** String order *)

Lemma string_compare_trans a b c :
  String.compare a b = Lt -> String.compare b c = Lt -> String.compare a c = Lt.
Proof.
  revert b c. induction a as [|x a IH]; intros [|y b] [|z c]; simpl;
    try discriminate; try reflexivity.
  unfold Ascii.compare.
  destruct (N.compare_spec (N_of_ascii x) (N_of_ascii y));
  destruct (N.compare_spec (N_of_ascii y) (N_of_ascii z));
  destruct (N.compare_spec (N_of_ascii x) (N_of_ascii z));
  try discriminate; try lia; try reflexivity; eauto.
Qed.

Section SortedSetOrder.
Context {A : Type} (cmp : A -> A -> comparison).
Hypothesis cmp_antisym : forall a b, cmp a b = CompOpp (cmp b a).
Hypothesis cmp_trans : forall a b c, cmp a b = Lt -> cmp b c = Lt -> cmp a c = Lt.

Lemma insert_uniq_strict x l :
  StronglySorted (fun a b => cmp a b = Lt) l ->
  StronglySorted (fun a b => cmp a b = Lt) (insert_uniq cmp x l).
Proof.
  induction 1 as [|z l Hs IH Hall]; simpl; [repeat constructor|].
  destruct (cmp x z) eqn:C.
  - constructor; assumption.
  - constructor; [constructor; assumption|].
    constructor; [assumption|]. rewrite Forall_forall in *.
    intros w Hw. apply (cmp_trans _ z); auto.
  - assert (C' : cmp z x = Lt) by (rewrite cmp_antisym, C; reflexivity).
    constructor; [assumption|].
    rewrite Forall_forall in *. intros w Hw.
    apply insert_uniq_in in Hw as [->|Hw]; auto.
Qed.

Lemma sorted_set_strict l :
  StronglySorted (fun a b => cmp a b = Lt) (sorted_set cmp l).
Proof.
  induction l as [|x l IH]; simpl; [constructor|]. apply insert_uniq_strict, IH.
Qed.
End SortedSetOrder.

Lemma companies_strict rs :
  StronglySorted (fun a b => String.compare a b = Lt) (companies (load_ctx rs)).
Proof.
  apply sorted_set_strict; [apply String.compare_antisym|apply string_compare_trans].
Qed.

(** The empty name is the first of a sorted set of names that holds it. *)
Lemma empty_name_first (cs : list string) :
  StronglySorted (fun a b => String.compare a b = Lt) cs -> In "" cs ->
  exists t, cs = "" :: t.
Proof.
  intros Hs Hin. destruct Hs as [|h t Hs Hall]; [destruct Hin|].
  exists t. destruct Hin as [<-|Hin]; [reflexivity|].
  rewrite Forall_forall in Hall. specialize (Hall _ Hin).
  destruct h; [reflexivity|discriminate].
Qed.

Lemma contains_empty s : contains "" s = true.
Proof. destruct s; reflexivity. Qed.

(** ** Year tokens *)

Lemma digit_val_bound c : is_digit c = true -> (0 <= digit_val c <= 9)%Z.
Proof.
  unfold is_digit, digit_val. intros H.
  apply andb_true_iff in H as [H1 H2]. apply Nat.leb_le in H1, H2. lia.
Qed.

Lemma findall_head s : hd_error (findall_20xx s) = search_20xx s.
Proof.
  induction s as [|c1 s1 IH]; [reflexivity|].
  cbn [findall_20xx search_20xx].
  destruct s1 as [|c2 [|a [|b rest]]]; try exact IH.
  unfold match_20xx.
  destruct ((c1 =? "2")%char && (c2 =? "0")%char && is_digit a && is_digit b);
    [reflexivity|exact IH].
Qed.

Lemma findall_range s z :
  In z (findall_20xx s) -> (2000 <= z <= 2099)%Z.
Proof.
  remember (String.length s) as n eqn:En. revert s En.
  induction n as [n IH] using lt_wf_ind. intros s En Hz.
  destruct s as [|c1 s1]; [destruct Hz|].
  cbn [findall_20xx] in Hz.
  destruct s1 as [|c2 [|a [|b rest]]];
    [destruct Hz|simpl in Hz; destruct Hz|simpl in Hz; destruct Hz|].
  destruct ((c1 =? "2")%char && (c2 =? "0")%char && is_digit a && is_digit b) eqn:M.
  - apply andb_true_iff in M as [M Hb]. apply andb_true_iff in M as [M Ha].
    destruct Hz as [<-|Hz].
    + apply digit_val_bound in Ha, Hb. lia.
    + apply (IH (String.length rest)) with rest; [rewrite En; simpl; lia|reflexivity|exact Hz].
  - apply (IH (String.length (String c2 (String a (String b rest))))) with
      (String c2 (String a (String b rest))); [rewrite En; simpl; lia|reflexivity|exact Hz].
Qed.

(** ** Sorting by a key, descending *)

Lemma insert_desc_perm {A} (ge : A -> A -> bool) x l :
  Permutation (insert_desc ge x l) (x :: l).
Proof.
  induction l as [|y l IH]; simpl; [reflexivity|].
  destruct (ge x y); [reflexivity|]. rewrite IH. apply perm_swap.
Qed.

Lemma sort_desc_perm {A} (ge : A -> A -> bool) l : Permutation (sort_desc ge l) l.
Proof.
  induction l as [|x l IH]; simpl; [reflexivity|].
  rewrite insert_desc_perm, IH. reflexivity.
Qed.

Lemma insert_desc_sorted {A} (x : A * Q) l :
  StronglySorted (fun a b => snd b <= snd a) l ->
  StronglySorted (fun a b => snd b <= snd a) (insert_desc key_ge x l).
Proof.
  induction 1 as [|y l Hs IH Hall]; simpl; [repeat constructor|].
  unfold key_ge at 1. destruct (Qle_bool (snd y) (snd x)) eqn:G.
  - apply Qle_bool_iff in G. constructor; [constructor; assumption|].
    constructor; [exact G|]. rewrite Forall_forall in *.
    intros z Hz. apply (Qle_trans _ (snd y)); auto.
  - assert (Hlt : snd x < snd y).
    { apply Qnot_le_lt. intros C. apply Qle_bool_iff in C. congruence. }
    constructor; [assumption|]. rewrite Forall_forall in *.
    intros z Hz. apply insert_desc_in in Hz as [->|Hz]; [apply Qlt_le_weak, Hlt|auto].
Qed.

Lemma sort_desc_sorted {A} (l : list (A * Q)) :
  StronglySorted (fun a b => snd b <= snd a) (sort_desc key_ge l).
Proof. induction l as [|x l IH]; simpl; [constructor|]. apply insert_desc_sorted, IH. Qed.

Lemma StronglySorted_map {A B} (P : A -> Prop) (R1 : A -> A -> Prop)
  (R2 : B -> B -> Prop) (f : A -> B) l :
  Forall P l -> StronglySorted R1 l ->
  (forall a b, P a -> P b -> R1 a b -> R2 (f a) (f b)) ->
  StronglySorted R2 (map f l).
Proof.
  intros HP Hs HR. induction Hs as [|a l Hs IH Hall]; simpl; [constructor|].
  inversion HP as [|? ? Pa Pl]; subst. constructor; [apply IH; assumption|].
  rewrite Forall_forall in *. intros b Hb. apply in_map_iff in Hb as [b' [<- Hb']].
  apply HR; auto.
Qed.

Lemma mapM_map {A B} (f : A -> M B) (g : A -> B) l :
  (forall x, In x l -> f x = ret (g x)) -> mapM f l = ret (map g l).
Proof.
  induction l as [|x l IH]; intros H; [reflexivity|]. simpl.
  rewrite (H x (or_introl eq_refl)), bind_ret, IH; [reflexivity|].
  intros y Hy. apply H. right; exact Hy.
Qed.

Lemma metric_value_spec r m v : row_metric r m = ret v -> metric_value r m = v.
Proof. unfold metric_value. intros ->. reflexivity. Qed.

(** ** Rounding *)

Lemma round_half_even_opp v : round_half_even (- v) = (- round_half_even v)%Z.
Proof.
  destruct v as [n d]. unfold round_half_even. cbn [Qopp Qnum Qden].
  assert (Hd : Zpos d <> 0%Z) by lia.
  pose proof (Z.mod_pos_bound n (Zpos d) ltac:(lia)) as Hb.
  destruct (Z.eq_dec (n mod Zpos d) 0) as [Z0|NZ].
  - rewrite (Z.div_opp_l_z _ _ Hd Z0), (Z.mod_opp_l_z _ _ Hd Z0), Z0. reflexivity.
  - rewrite (Z.div_opp_l_nz _ _ Hd NZ), (Z.mod_opp_l_nz _ _ Hd NZ).
    set (fl := (n / Zpos d)%Z). set (r := (n mod Zpos d)%Z) in *.
    destruct (Z.compare_spec (2 * r) (Zpos d)) as [E|E|E];
    destruct (Z.compare_spec (2 * (Zpos d - r)) (Zpos d)) as [E'|E'|E']; try lia.
    rewrite Z.even_sub, Z.even_opp. destruct (Z.even fl); simpl; lia.
Qed.

Lemma round_half_even_Z k : round_half_even (inject_Z k) = k.
Proof.
  unfold round_half_even, inject_Z. cbn [Qnum Qden].
  rewrite Z.div_1_r, Z.mod_1_r. reflexivity.
Qed.

Lemma round_half_even_tie k :
  round_half_even ((2 * k + 1) # 2) = if Z.even k then k else (k + 1)%Z.
Proof.
  unfold round_half_even. cbn [Qnum Qden].
  assert (Hq : ((2 * k + 1) / 2 = k)%Z) by (symmetry; apply Z.div_unique with 1%Z; lia).
  assert (Hr : ((2 * k + 1) mod 2 = 1)%Z) by (symmetry; apply Z.mod_unique with k; lia).
  rewrite Hq, Hr. reflexivity.
Qed.

(** ** The whole dispatcher *)

Lemma handle_query_ok rs query : exists s, handle_query (load_ctx rs) query = ret s.
Proof.
  unfold handle_query.
  destruct (dispatch (normalize_text query));
    first [ eexists; reflexivity
          | apply handle_top_ok | apply handle_compare_ok
          | apply handle_growth_ok | apply handle_lookup_ok ].
Qed.

(** ** The interactive loop *)

Lemma chat_loop_bye rs inputs :
  exists out last, chat_loop (load_ctx rs) inputs = ((out ++ [last])%list, None) /\
    (last = py_print ["Bot: Bye."] \/ last = py_print [nl ++ "Bot: Bye."]).
Proof.
  induction inputs as [|line rest IH].
  - exists [prompt], (py_print [nl ++ "Bot: Bye."]). split; [reflexivity|right; reflexivity].
  - destruct IH as [out [last [E Hl]]]. cbn [chat_loop].
    destruct (strip line =? "").
    + rewrite E. exists (prompt :: out), last. split; [reflexivity|exact Hl].
    + destruct (_ || _).
      * exists [prompt], (py_print ["Bot: Bye."]). split; [reflexivity|left; reflexivity].
      * destruct (handle_query_ok rs (strip line)) as [ans Ha]. rewrite Ha. cbn [ret].
        rewrite E. exists (prompt :: py_print ["Bot:"; ans] :: out), last.
        split; [reflexivity|exact Hl].
Qed.


(** * The claims *)

(** C1: on every context built by [load_data] and every query,
    [handle_query] returns a string and raises nothing; the year that
    [find_year] extracts against the context's years occurs in some row,
    which is what keeps [sorted(yearly)[0]] of the ranking branch safe. *)
Theorem handle_query_never_raises rs query :
  (exists s, handle_query (load_ctx rs) query = ret s) /\
  (forall q y, find_year q (years (load_ctx rs)) = Some y ->
               exists r, In r rs /\ fiscal_year r = y).
Proof.
  split.
  - unfold handle_query.
    destruct (dispatch (normalize_text query));
      first [ eexists; reflexivity
            | apply handle_top_ok | apply handle_compare_ok
            | apply handle_growth_ok | apply handle_lookup_ok ].
  - intros q y Hy. apply years_of_load, (find_year_in q), Hy.
Qed.

(** C3: when the ranking branch extracts a metric [m] and a year [y], it
    reports the row whose [m] value is maximal among the rows of year [y];
    rows before it in dataset order have strictly smaller values, rows
    after it have smaller or equal ones, so among equal maxima the first
    row in dataset order is reported. *)
Theorem top_reports_first_maximum rs query m y :
  dispatch (normalize_text query) = ITop ->
  truthy_str (find_metric (normalize_text query)) = Some m ->
  truthy_int (find_year (normalize_text query) (years (load_ctx rs))) = Some y ->
  exists pre r post v,
    yearly_rows (load_ctx rs) y = (pre ++ r :: post)%list /\
    row_metric r m = ret v /\
    (forall r', In r' pre -> exists v', row_metric r' m = ret v' /\ v' < v) /\
    (forall r', In r' post -> exists v', row_metric r' m = ret v' /\ v' <= v) /\
    handle_query (load_ctx rs) query
    = ret ("Top " ++ m ++ " in " ++ Z_to_string y ++ ": " ++ company r
           ++ " with " ++ money v ++ ".").
Proof.
  intros Hd Hm Hy.
  unfold handle_query. rewrite Hd. unfold handle_top. rewrite Hm, Hy.
  apply truthy_str_some in Hm. apply truthy_int_some in Hy.
  pose proof (find_metric_key _ m Hm) as Hk.
  destruct (keyed_ok m (yearly_rows (load_ctx rs) y) Hk) as [kv [E [Hf Hall]]].
  destruct (years_of_load rs y (find_year_in _ _ _ Hy)) as [r0 [Hr0 Hr0y]].
  assert (Hne : kv <> []).
  { intros ->. simpl in Hf. pose proof (yearly_rows_in (load_ctx rs) y r0 Hr0 Hr0y).
    rewrite <- Hf in H. contradiction. }
  destruct (sort_desc_head kv Hne) as [pre [[r v] [post [rest [Ekv [Hpre [Hpost Hs]]]]]]].
  rewrite Forall_forall in Hall.
  assert (Hv : row_metric r m = ret v).
  { apply (Hall (r, v)). rewrite Ekv. apply in_or_app. right; left; reflexivity. }
  exists (map fst pre), r, (map fst post), v.
  repeat split.
  - rewrite <- Hf, Ekv, map_app. reflexivity.
  - assumption.
  - intros r' Hr'. apply in_map_iff in Hr' as [p [<- Hp]].
    exists (snd p). split; [apply Hall; rewrite Ekv; apply in_or_app; left; assumption|].
    apply (Hpre p Hp).
  - intros r' Hr'. apply in_map_iff in Hr' as [p [<- Hp]].
    exists (snd p). split; [apply Hall; rewrite Ekv; apply in_or_app; right; right; assumption|].
    apply (Hpost p Hp).
  - unfold sort_by_metric. rewrite E, bind_ret, Hs.
    cbn [map fst py_index nth_error bind ret]. rewrite Hv. reflexivity.
Qed.

(** C2 (amended): when the dispatcher falls through to the point lookup and
    a company [c], a year [y] and a metric [m] are all extracted, the answer
    is ["{c} {m} in {y}: {money(value)}."] for the first row of [c] (case
    insensitively) in year [y], and ["No data for {c} in {y}."] when there
    is none.  In particular "Apple revenue 2025" answers
    ["Apple Total Revenue (USD millions) in 2025: $400,000M."] on a context
    whose first (apple, 2025) row has revenue 400000, provided no company
    sorted before "Apple" has its lowercased name inside the query. *)
Theorem point_lookup_answer :
  (forall ctx query c y m,
     dispatch (normalize_text query) = ILookup ->
     truthy_str (find_company (normalize_text query) (companies ctx)) = Some c ->
     truthy_int (find_year (normalize_text query) (years ctx)) = Some y ->
     truthy_str (find_metric (normalize_text query)) = Some m ->
     match get_row ctx c y with
     | None => handle_query ctx query
               = ret ("No data for " ++ c ++ " in " ++ Z_to_string y ++ ".")
     | Some r => exists v, row_metric r m = ret v /\
                 handle_query ctx query
                 = ret (c ++ " " ++ m ++ " in " ++ Z_to_string y ++ ": "
                        ++ money v ++ ".")
     end) /\
  (forall rs pre r post,
     rs = (pre ++ r :: post)%list ->
     company r = "Apple" -> fiscal_year r = 2025%Z -> total_revenue r = 400000 ->
     (forall r', In r' pre -> lower (company r') = "apple" -> fiscal_year r' <> 2025%Z) ->
     (forall l1 l2, companies (load_ctx rs) = (l1 ++ "Apple" :: l2)%list ->
        forall c, In c l1 -> contains (lower c) "apple revenue 2025" = false) ->
     handle_query (load_ctx rs) "Apple revenue 2025"
     = ret "Apple Total Revenue (USD millions) in 2025: $400,000M.").
Proof.
  split.
  - intros ctx query c y m Hd Hc Hy Hm.
    unfold handle_query. rewrite Hd. unfold handle_lookup. cbv zeta.
    rewrite Hc, Hy, Hm.
    apply truthy_str_some in Hm.
    destruct (get_row ctx c y) as [r|]; [|reflexivity].
    destruct (find_metric_key _ m Hm r) as [v Hv]. exists v. split; [assumption|].
    rewrite Hv. reflexivity.
  - intros rs pre r post Ers Hc Hy Hv Hpre Hfirst.
    assert (Hr : In r rs) by (rewrite Ers; apply in_or_app; right; left; reflexivity).
    assert (Hq : normalize_text "Apple revenue 2025" = "apple revenue 2025")
      by reflexivity.
    unfold handle_query. rewrite Hq.
    change (dispatch "apple revenue 2025") with ILookup.
    unfold handle_lookup. cbv zeta.
    assert (HC : find_company "apple revenue 2025" (companies (load_ctx rs)) = Some "Apple").
    { pose proof (company_in_load rs r Hr) as Hin. rewrite Hc in Hin.
      apply in_split in Hin as [l1 [l2 E]].
      unfold find_company. rewrite E. apply find_app_first; [|reflexivity].
      intros c' Hc'. apply (Hfirst l1 l2 E c' Hc'). }
    assert (HY : find_year "apple revenue 2025" (years (load_ctx rs)) = Some 2025%Z).
    { apply find_year_member; [reflexivity|]. rewrite <- Hy. apply year_in_load, Hr. }
    assert (HM : find_metric "apple revenue 2025" = Some M_REVENUE) by reflexivity.
    rewrite HC, HY, HM. cbn [truthy_str truthy_int String.eqb Z.eqb].
    assert (HG : get_row (load_ctx rs) "Apple" 2025 = Some r).
    { unfold get_row. simpl rows. rewrite Ers. apply find_app_first.
      - intros r' Hr'. change (lower "Apple") with "apple".
        destruct (lower (company r') =? "apple") eqn:E1; [|reflexivity].
        apply String.eqb_eq in E1. simpl. apply Z.eqb_neq, (Hpre r' Hr' E1).
      - rewrite Hc, Hy. reflexivity. }
    rewrite HG. unfold row_metric. cbn [String.eqb M_REVENUE bind ret].
    rewrite Hv. reflexivity.
Qed.

(** The "Apple revenue 2025" example fails on a context that also holds a
    company "AP": it sorts before "Apple" and "ap" occurs in the query, so
    the lookup is for AP. *)
Definition ap24 : row := mk_row "AP" 2024 "ap_2024.pdf" 10 1 20 5 2.

Lemma point_lookup_apple_cex :
  handle_query (load_ctx [apple25; ap24]) "Apple revenue 2025"
  = ret "No data for AP in 2025." /\
  handle_query (load_ctx [apple25; ap24]) "Apple revenue 2025"
  <> ret "Apple Total Revenue (USD millions) in 2025: $400,000M.".
Proof. split; vm_compute; [reflexivity|discriminate]. Qed.

Lemma point_lookup_answer_witness :
  match get_row (load_ctx [apple25]) "Apple" 2025%Z with
  | None => handle_query (load_ctx [apple25]) "Apple revenue 2025"
            = ret ("No data for " ++ "Apple" ++ " in " ++ Z_to_string 2025%Z ++ ".")
  | Some r => exists v, row_metric r M_REVENUE = ret v /\
              handle_query (load_ctx [apple25]) "Apple revenue 2025"
              = ret ("Apple" ++ " " ++ M_REVENUE ++ " in " ++ Z_to_string 2025%Z
                     ++ ": " ++ money v ++ ".")
  end /\
  handle_query (load_ctx [apple25]) "Apple revenue 2025"
  = ret "Apple Total Revenue (USD millions) in 2025: $400,000M.".
Proof.
  split.
  - apply (proj1 point_lookup_answer (load_ctx [apple25]) "Apple revenue 2025"
             "Apple" 2025%Z M_REVENUE); vm_compute; reflexivity.
  - apply (proj2 point_lookup_answer [apple25] [] apple25 []);
      try reflexivity.
    + intros r' [].
    + intros l1 l2 E c Hc.
      change (companies (load_ctx [apple25])) with ["Apple"] in E.
      destruct l1 as [|c0 [|c1 l1]]; [destruct Hc | |];
        simpl in E; injection E; intros; discriminate.
Defined.

(** The ranking example of the spec: values 500, 900, 300 in one year. *)
Definition rank_rows : list row :=
  [ mk_row "Alpha" 2025 "a.pdf" 500 1 1 1 1;
    mk_row "Beta" 2025 "b.pdf" 900 1 1 1 1;
    mk_row "Gamma" 2025 "c.pdf" 300 1 1 1 1 ].

Example top_500_900_300 :
  handle_query (load_ctx rank_rows) "top revenue 2025"
  = ret "Top Total Revenue (USD millions) in 2025: Beta with $900M.".
Proof. vm_compute. reflexivity. Qed.

Lemma top_reports_first_maximum_witness :
  exists r v,
    handle_query (load_ctx rank_rows) "top revenue 2025"
    = ret ("Top " ++ M_REVENUE ++ " in " ++ Z_to_string 2025%Z ++ ": " ++ company r
           ++ " with " ++ money v ++ ".").
Proof.
  destruct (top_reports_first_maximum rank_rows "top revenue 2025" M_REVENUE 2025%Z)
    as (pre & r & post & v & _ & _ & _ & _ & H); try reflexivity.
  exists r, v. exact H.
Defined.

(** C4 (amended): [find_metric] returns the canonical metric of an alias
    occurring in the normalised query that is at least as long as every
    alias occurring there.  So "net income" wins over "income"; a query
    with "net income" and no longer alias resolves to the net-income
    metric, but a longer alias in the same query (e.g. "liabilities")
    wins over "net income". *)
Theorem find_metric_longest_alias :
  (forall q a,
     In a METRIC_ALIASES -> contains (fst a) (normalize_text q) = true ->
     exists a', In a' METRIC_ALIASES /\
                contains (fst a') (normalize_text q) = true /\
                (String.length (fst a) <= String.length (fst a'))%nat /\
                find_metric q = Some (snd a')) /\
  (forall q,
     contains "net income" (normalize_text q) = true ->
     (forall a, In a METRIC_ALIASES -> contains (fst a) (normalize_text q) = true ->
                (String.length (fst a) <= 10)%nat) ->
     find_metric q = Some M_INCOME).
Proof.
  assert (Gen : forall q a,
     In a METRIC_ALIASES -> contains (fst a) (normalize_text q) = true ->
     exists a', In a' METRIC_ALIASES /\
                contains (fst a') (normalize_text q) = true /\
                (String.length (fst a) <= String.length (fst a'))%nat /\
                find_metric q = Some (snd a')).
  { intros q a Ha Hc. unfold find_metric.
    destruct (find (fun am => contains (fst am) (normalize_text q))
                   (sort_desc alias_ge METRIC_ALIASES)) as [[x m]|] eqn:F.
    - exists (x, m). pose proof F as F'. apply find_some in F' as [Hin Hx].
      rewrite sort_desc_in in Hin. repeat split; try assumption.
      apply (find_longest _ _ a (x, m) sorted_aliases_desc F);
        [apply sort_desc_in|]; assumption.
    - exfalso. eapply find_none in F; [|apply sort_desc_in; eassumption].
      congruence. }
  split; [exact Gen|].
  intros q Hn Hmax.
  destruct (Gen q ("net income", M_INCOME)) as [[x m] [Hin [Hc [Hl Hf]]]];
    [simpl; tauto | exact Hn |].
  rewrite Hf. pose proof (Hmax (x, m) Hin Hc) as Hle. simpl in Hl, Hle.
  simpl in Hin.
  repeat destruct Hin as [Hin|Hin]; try contradiction;
    injection Hin as <- <-; simpl in Hl, Hle; try lia; reflexivity.
Qed.

(** A query with "net income" and the longer alias "liabilities". *)
Lemma net_income_shadowed_cex :
  contains "net income" (normalize_text "net income and liabilities") = true /\
  contains "income" (normalize_text "net income and liabilities") = true /\
  find_metric "net income and liabilities" = Some M_LIABILITIES /\
  find_metric "net income and liabilities" <> Some M_INCOME.
Proof. vm_compute. repeat split; discriminate. Qed.

Lemma find_metric_longest_alias_witness :
  (exists a', In a' METRIC_ALIASES /\
     contains (fst a') (normalize_text "Apple net income 2024") = true /\
     (String.length "income" <= String.length (fst a'))%nat /\
     find_metric "Apple net income 2024" = Some (snd a')) /\
  find_metric "Apple net income 2024" = Some M_INCOME.
Proof.
  split.
  - apply (proj1 find_metric_longest_alias "Apple net income 2024" ("income", M_INCOME));
      [simpl; tauto | vm_compute; reflexivity].
  - apply (proj2 find_metric_longest_alias); [vm_compute; reflexivity|].
    intros a Ha Hc. simpl in Ha.
    repeat destruct Ha as [Ha|Ha]; try contradiction; subst a;
      vm_compute in Hc; try discriminate; simpl; lia.
Defined.

(** C5: the growth branch takes every [20xx] token of the query (whatever
    the dataset's years), and when there are two distinct ones it compares
    the smallest and the largest token; the tokens in between play no
    part.  It then checks both against the dataset's years and answers
    with the list of available years when one of them is missing. *)
Theorem growth_uses_min_max_tokens ctx query c m a b :
  dispatch (normalize_text query) = IGrowth ->
  truthy_str (find_company (normalize_text query) (companies ctx)) = Some c ->
  truthy_str (find_metric (normalize_text query)) = Some m ->
  In a (findall_20xx (normalize_text query)) ->
  In b (findall_20xx (normalize_text query)) -> a <> b ->
  exists y1 y2,
    In y1 (findall_20xx (normalize_text query)) /\
    In y2 (findall_20xx (normalize_text query)) /\
    (y1 < y2)%Z /\
    (forall t, In t (findall_20xx (normalize_text query)) -> (y1 <= t <= y2)%Z) /\
    handle_query ctx query =
      if existsb (Z.eqb y1) (years ctx) && existsb (Z.eqb y2) (years ctx) then
        match get_row ctx c y1, get_row ctx c y2 with
        | Some r1, Some r2 => growth_report c m y1 y2 r1 r2
        | _, _ => ret ("Missing data for " ++ c ++ " in " ++ Z_to_string y1
                       ++ " or " ++ Z_to_string y2 ++ ".")
        end
      else ret ("Available years are: " ++ years_str ctx).
Proof.
  intros Hd Hc Hm Ha Hb Hab.
  set (toks := findall_20xx (normalize_text query)) in *.
  unfold handle_query. rewrite Hd. unfold handle_growth. rewrite Hc, Hm.
  fold toks. set (ys := sorted_set Z.compare toks).
  assert (Hin : forall t, In t ys <-> In t toks)
    by (intros t; apply sorted_set_in_iff, Z.compare_eq).
  assert (Hs : StronglySorted Z.lt ys) by apply sorted_set_sorted.
  assert (Hlen : (2 <= List.length ys)%nat)
    by (apply (two_distinct_length ys a b); rewrite ?Hin; assumption).
  destruct ys as [|y1 [|y ys']] eqn:Eys; simpl in Hlen; try lia.
  cbn [List.length Nat.ltb Nat.leb py_index nth_error bind ret]. unfold py_last.
  destruct (rev (y1 :: y :: ys')) as [|y2 rest] eqn:R.
  { apply (f_equal (@List.length Z)) in R. rewrite length_rev in R. discriminate. }
  assert (Ey : (y1 :: y :: ys')%list = (rev rest ++ [y2])%list).
  { rewrite <- (rev_involutive (y1 :: y :: ys')), R. reflexivity. }
  assert (Hlast : forall t, In t (y1 :: y :: ys') -> t = y2 \/ (t < y2)%Z).
  { intros t Ht. rewrite Ey in Ht, Hs. apply in_app_or in Ht as [Ht|[<-|[]]]; [|auto].
    right. apply (sorted_last Z.lt (rev rest) y2 Hs t Ht). }
  inversion Hs as [|? ? Hs' Hall]; subst. rewrite Forall_forall in Hall.
  exists y1, y2. split; [|split; [|split; [|split]]].
  - apply Hin. left; reflexivity.
  - apply Hin. rewrite Ey. apply in_or_app. right; left; reflexivity.
  - assert (y1 < y)%Z by (apply Hall; left; reflexivity).
    destruct (Hlast y (or_intror (or_introl eq_refl))) as [<-|]; lia.
  - intros t Ht. apply Hin in Ht. split.
    + destruct Ht as [<-|Ht]; [lia|]. pose proof (Hall t Ht). lia.
    + destruct (Hlast t Ht); lia.
  - rewrite bind_ret.
    destruct (existsb (Z.eqb y1) (years ctx)), (existsb (Z.eqb y2) (years ctx));
      reflexivity.
Qed.

Lemma growth_uses_min_max_tokens_witness :
  exists y1 y2,
    In y1 (findall_20xx (normalize_text "growth of Tesla revenue from 2023 to 2024 to 2025")) /\
    In y2 (findall_20xx (normalize_text "growth of Tesla revenue from 2023 to 2024 to 2025")) /\
    (y1 < y2)%Z /\
    (forall t, In t (findall_20xx (normalize_text "growth of Tesla revenue from 2023 to 2024 to 2025")) ->
               (y1 <= t <= y2)%Z) /\
    handle_query (load_ctx [tesla23; tesla25]) "growth of Tesla revenue from 2023 to 2024 to 2025" =
      if existsb (Z.eqb y1) (years (load_ctx [tesla23; tesla25]))
         && existsb (Z.eqb y2) (years (load_ctx [tesla23; tesla25])) then
        match get_row (load_ctx [tesla23; tesla25]) "Tesla" y1,
              get_row (load_ctx [tesla23; tesla25]) "Tesla" y2 with
        | Some r1, Some r2 => growth_report "Tesla" M_REVENUE y1 y2 r1 r2
        | _, _ => ret ("Missing data for " ++ "Tesla" ++ " in " ++ Z_to_string y1
                       ++ " or " ++ Z_to_string y2 ++ ".")
        end
      else ret ("Available years are: " ++ years_str (load_ctx [tesla23; tesla25])).
Proof.
  apply (growth_uses_min_max_tokens (load_ctx [tesla23; tesla25])
           "growth of Tesla revenue from 2023 to 2024 to 2025" "Tesla" M_REVENUE
           2023 2025);
    [reflexivity | reflexivity | reflexivity
    | vm_compute; tauto | vm_compute; tauto | discriminate].
Defined.

(** C6 (amended): the change report never divides by zero.  With an old
    value of 0 the percentage is 0.  Otherwise the percentage is
    (new - old) / old * 100 evaluated in binary64: the difference, the
    quotient and the product by 100 are each rounded to the nearest
    double, and the division raises nothing. *)
Theorem growth_percent_guard c m y1 y2 r1 r2 old new :
  row_metric r1 m = ret old -> row_metric r2 m = ret new ->
  let delta := pf_sub new old in
  let sign := if pf_ge0 delta then "+" else "-" in
  let report pct :=
    ret (c ++ " " ++ m ++ " changed from " ++ money old ++ " ("
         ++ Z_to_string y1 ++ ") to " ++ money new ++ " (" ++ Z_to_string y2
         ++ "): " ++ sign ++ pf_money (pf_abs delta) ++ " (" ++ sign
         ++ pf_format fmt_2f (pf_abs pct) ++ "%).") in
  ((old == 0)%Q -> growth_report c m y1 y2 r1 r2 = report (PFin 0)) /\
  (~ (old == 0)%Q ->
   exists q, pf_div delta old = ret q /\
     (forall x, delta = PFin x -> q = round_double (x / old)) /\
     growth_report c m y1 y2 r1 r2 = report (pf_mul q 100)).
Proof.
  intros Ho Hn delta sign report. unfold growth_report.
  rewrite Ho, bind_ret, Hn, bind_ret. fold delta. split.
  - intros Hz. apply Qeq_bool_iff in Hz. rewrite Hz. reflexivity.
  - intros Hz. destruct (Qeq_bool old 0) eqn:E.
    { exfalso. apply Hz, Qeq_bool_iff, E. }
    unfold pf_div. rewrite E.
    destruct delta as [x|n|] eqn:D.
    + exists (round_double (x / old)). split; [reflexivity|].
      split; [intros ? [= <-]; reflexivity|reflexivity].
    + exists (PInf (xorb n (neg_q old))). split; [reflexivity|].
      split; [discriminate|reflexivity].
    + exists PNaN. split; [reflexivity|]. split; [discriminate|reflexivity].
Qed.

Definition acme24 : row := mk_row "Acme" 2024 "acme_2024.pdf" 20000 1 1 1 1.
Definition acme25 : row := mk_row "Acme" 2025 "acme_2025.pdf" 20003 1 1 1 1.

(** With an old value of 20000 and a new one of 20003, the exact ratio
    3 / 20000 * 100 = 0.015 would print as [0.02]; the double computed
    from it is 0.01499999..., which prints as [0.01]. *)
Lemma growth_percent_exact_cex :
  handle_query (load_ctx [acme24; acme25]) "growth of Acme revenue from 2024 to 2025"
  = ret ("Acme Total Revenue (USD millions) changed from $20,000M (2024) to "
         ++ "$20,003M (2025): +$3M (+0.01%).") /\
  pf_mul (round_double (3 / 20000)) 100 = PFin (8646911284551352 # 576460752303423488) /\
  fmt_2f (Qabs ((20003 - 20000) / 20000 * 100)) = "0.02".
Proof. split; [|split]; vm_compute; reflexivity. Qed.

Lemma growth_percent_guard_witness :
  growth_report "Tesla" M_INCOME 2023 2025 tesla23 tesla25 =
    ret ("Tesla Net Income (USD millions) changed from $0M (2023) to $-20M (2025): "
         ++ "-$20M (-0.00%).") /\
  exists q, pf_div (pf_sub 150 100) 100 = ret q /\
    (forall x, pf_sub 150 100 = PFin x -> q = round_double (x / 100)) /\
    growth_report "Tesla" M_REVENUE 2023 2025 tesla23 tesla25 =
      ret ("Tesla Total Revenue (USD millions) changed from $100M (2023) to "
           ++ "$150M (2025): +$50M (+" ++ pf_format fmt_2f (pf_abs (pf_mul q 100))
           ++ "%).").
Proof.
  split.
  - rewrite (proj1 (growth_percent_guard "Tesla" M_INCOME 2023 2025 tesla23 tesla25 0 (-20)
                      eq_refl eq_refl) ltac:(vm_compute; reflexivity)).
    vm_compute. reflexivity.
  - apply (proj2 (growth_percent_guard "Tesla" M_REVENUE 2023 2025 tesla23 tesla25 100 150
                    eq_refl eq_refl)).
    vm_compute. discriminate.
Defined.

(** C7 (amended): [find_company] returns the first listed company whose
    lowercased name occurs in the normalised query.  A query made only of
    the name of a listed company [C], in any letter case, returns [C]
    when [C]'s name is already whitespace-normalised and no company listed
    before [C] has a lowercased name inside [C]'s lowercased name. *)
Theorem find_company_own_name cs C q :
  In C cs -> lower q = lower C -> normalize_text C = lower C ->
  (forall l1 l2, cs = (l1 ++ C :: l2)%list ->
     forall c, In c l1 -> contains (lower c) (lower C) = false) ->
  find_company q cs = Some C.
Proof.
  intros Hin Hq HC Hfirst.
  assert (Hn : normalize_text q = lower C).
  { rewrite normalize_text_lower, Hq, <- normalize_text_lower. exact HC. }
  apply in_split in Hin as [l1 [l2 E]].
  unfold find_company. rewrite Hn, E. apply find_app_first.
  - apply (Hfirst l1 l2 E).
  - apply contains_refl.
Qed.

Lemma find_company_own_name_witness :
  find_company "mEtA" ["Apple"; "Meta"; "Tesla"] = Some "Meta".
Proof.
  apply find_company_own_name; [simpl; tauto | reflexivity | reflexivity |].
  intros l1 l2 E c Hc.
  destruct l1 as [|c0 [|c1 [|c2 l1]]]; simpl in E; inversion E; subst.
  - destruct Hc as [<-|[]]. reflexivity.
  - destruct l1; discriminate.
Defined.

(** A listed company whose name begins with another listed name. *)
Definition meta25 : row := mk_row "Meta" 2025 "meta_2025.pdf" 1 1 1 1 1.
Definition metal25 : row := mk_row "Metal" 2025 "metal_2025.pdf" 2 2 2 2 2.

Lemma find_company_prefix_cex :
  In "Metal" (companies (load_ctx [meta25; metal25])) /\
  find_company "Metal" (companies (load_ctx [meta25; metal25])) = Some "Meta".
Proof. vm_compute. split; [tauto|reflexivity]. Qed.

(** C8 (amended): for a dataset year [Y] between 2000 and 2099, a query in
    which [Y] occurs and every [20xx] occurrence is [Y] gives [Y]; when
    the first [20xx] token of a query is not a dataset year the result is
    absent. *)
Theorem find_year_spec :
  (forall q ys Y,
     (2000 <= Y <= 2099)%Z -> In Y ys ->
     contains (Z_to_string Y) q = true ->
     (forall z, In z (all_20xx q) -> z = Y) ->
     find_year q ys = Some Y) /\
  (forall q ys z, search_20xx q = Some z -> ~ In z ys -> find_year q ys = None).
Proof.
  split.
  - intros q ys Y HY Hin Hc Hall.
    apply find_year_member; [apply search_20xx_unique|]; assumption.
  - intros q ys z Hs Hn. unfold find_year. rewrite Hs.
    destruct (existsb (Z.eqb z) ys) eqn:E; [|reflexivity].
    exfalso. apply existsb_exists in E as [x [Hx Heq]].
    apply Z.eqb_eq in Heq. subst. contradiction.
Qed.

Lemma find_year_spec_witness :
  find_year "compare net income 2024" [2023; 2024; 2025]%Z = Some 2024%Z /\
  find_year "Apple revenue 2021 and 2024" [2023; 2024; 2025]%Z = None.
Proof.
  split.
  - apply (proj1 find_year_spec); [lia | simpl; tauto | vm_compute; reflexivity |].
    intros z Hz. vm_compute in Hz. destruct Hz as [<-|[]]. reflexivity.
  - apply (proj2 find_year_spec _ _ 2021%Z); [vm_compute; reflexivity|].
    simpl. lia.
Defined.

(** A dataset year outside [20xx] is never extracted. *)
Definition apple1999 : row := mk_row "Apple" 1999 "apple_1999.pdf" 6134 601 4289 2230 798.

Lemma find_year_1999_cex :
  In 1999%Z (years (load_ctx [apple1999])) /\
  contains (Z_to_string 1999) "Apple revenue 1999" = true /\
  all_20xx "Apple revenue 1999" = [] /\
  find_year "Apple revenue 1999" (years (load_ctx [apple1999])) = None.
Proof. vm_compute. repeat split; tauto. Qed.

(** C9: [money] prints a nearest integer to the value (ties to even), with
    the value's sign, a comma between groups of three digits counted from
    the right, a leading [$] and a trailing [M]; [money(12345.6)] is
    ["$12,346M"]. *)
Theorem money_format :
  (forall v, exists n : Z,
     Qabs (v - inject_Z n) <= 1 # 2 /\
     money v = "$" ++ (neg_sign v ++ group_thousands (N_to_string (Z.abs_N n))) ++ "M") /\
  (forall l, (List.length l <= 3)%nat ->
     group_thousands (string_of_list_ascii l) = string_of_list_ascii l) /\
  (forall l x y z, l <> [] ->
     group_thousands (string_of_list_ascii (l ++ [x; y; z])%list)
     = group_thousands (string_of_list_ascii l) ++ "," ++ string_of_list_ascii [x; y; z]) /\
  money (123456 # 10) = "$12,346M".
Proof.
  split; [|split; [|split]].
  - intros v. exists (round_half_even v). split; [apply round_half_even_nearest|].
    reflexivity.
  - apply group_thousands_short.
  - apply group_thousands_step.
  - vm_compute. reflexivity.
Qed.

Lemma money_format_witness :
  group_thousands "1234567" = "1,234,567" /\ money 400000 = "$400,000M".
Proof.
  split.
  - change "1234567" with (string_of_list_ascii
      (app ["1"%char; "2"%char; "3"%char; "4"%char] ["5"%char; "6"%char; "7"%char])).
    rewrite (proj1 (proj2 (proj2 money_format))); [|discriminate].
    change (string_of_list_ascii ["1"%char; "2"%char; "3"%char; "4"%char])
      with (string_of_list_ascii (app ["1"%char] ["2"%char; "3"%char; "4"%char])).
    rewrite (proj1 (proj2 (proj2 money_format))); [|discriminate].
    rewrite (proj1 (proj2 money_format)); [reflexivity|simpl; lia].
  - destruct (proj1 money_format 400000) as [n [Hn E]]. rewrite E.
    assert (n = 400000%Z).
    { rewrite Qminus_inject_Z in Hn. unfold Qabs, Qle in Hn. cbn [Qnum Qden] in Hn.
      lia. }
    subst. vm_compute. reflexivity.
Defined.

(** C10: when the summary branch is reached for a company [c] that has no
    row in the dataset's latest year, the answer is the fixed
    ["No summary available for {c}."]; [handle_query] only reads the
    context, which it does not return or change. *)
Theorem summary_without_latest_row rs query c :
  dispatch (normalize_text query) = ILookup ->
  truthy_str (find_company (normalize_text query) (companies (load_ctx rs))) = Some c ->
  (truthy_int (find_year (normalize_text query) (years (load_ctx rs))) = None \/
   truthy_str (find_metric (normalize_text query)) = None) ->
  contains "summary" (normalize_text query) || contains "overview" (normalize_text query)
    = true ->
  (forall r, In r rs -> lower (company r) = lower c ->
     exists r', In r' rs /\ (fiscal_year r < fiscal_year r')%Z) ->
  handle_query (load_ctx rs) query = ret ("No summary available for " ++ c ++ ".").
Proof.
  intros Hd Hc Hym Hs Hlate.
  unfold handle_query. rewrite Hd. unfold handle_lookup. cbv zeta. rewrite Hc.
  assert (Hne : years (load_ctx rs) <> []).
  { apply truthy_str_some, find_company_in, companies_of_load in Hc as [r0 [Hr0 _]].
    simpl. apply sorted_set_nonempty. destruct rs; [contradiction|discriminate]. }
  destruct (py_max_spec _ Hne) as [latest [Hl [_ Hmax]]].
  assert (Hg : get_row (load_ctx rs) c latest = None).
  { unfold get_row. simpl rows.
    destruct (find _ rs) as [r|] eqn:F; [|reflexivity]. exfalso.
    apply find_some in F as [Hr Hf]. apply andb_true_iff in Hf as [Hf1 Hf2].
    apply String.eqb_eq in Hf1. apply Z.eqb_eq in Hf2.
    destruct (Hlate r Hr Hf1) as [r' [Hr' Hlt]].
    pose proof (Hmax _ (year_in_load rs r' Hr')). lia. }
  destruct Hym as [Hy|Hm].
  - rewrite Hy, Hs, Hl, bind_ret, Hg. reflexivity.
  - rewrite Hm. destruct (truthy_int _); rewrite Hs, Hl, bind_ret, Hg; reflexivity.
Qed.

Definition apple24 : row := mk_row "Apple" 2024 "apple_2024.pdf" 391035 93736 364980 308030 118254.

Lemma summary_without_latest_row_witness :
  handle_query (load_ctx [apple24; tesla25]) "Apple summary"
  = ret ("No summary available for " ++ "Apple" ++ ".").
Proof.
  apply summary_without_latest_row;
    [reflexivity | reflexivity | left; vm_compute; reflexivity | reflexivity |].
  intros r Hr Hl. exists tesla25. split; [right; left; reflexivity|].
  destruct Hr as [<-|[<-|[]]]; [reflexivity|discriminate].
Defined.

(** * Further properties of the code *)

(** X1: [normalize_text] is idempotent: normalising an already normalised
    text changes nothing, so the extractors, which normalise the query that
    [handle_query] has already normalised, see the same text. *)
Theorem normalize_text_idempotent s : normalize_text (normalize_text s) = normalize_text s.
Proof. apply normalize_idem. Qed.

(** X2: a normalised text is in lower case, its only whitespace character
    is the space, no two whitespace characters are adjacent, and it neither
    starts nor ends with whitespace. *)
Theorem normalize_text_shape s :
  lower (normalize_text s) = normalize_text s /\
  ws_clean (normalize_text s) = true /\
  starts_space (normalize_text s) = false /\
  ends_space (normalize_text s) = false.
Proof. apply normalize_shape. Qed.

(** X3: the answer of [handle_query] does not change when the query is
    lowercased, stripped, or replaced by its normalised form. *)
Theorem handle_query_normalized ctx query :
  handle_query ctx (lower query) = handle_query ctx query /\
  handle_query ctx (strip query) = handle_query ctx query /\
  handle_query ctx (normalize_text query) = handle_query ctx query.
Proof.
  unfold handle_query. rewrite normalize_lower, normalize_strip, normalize_idem.
  repeat split.
Qed.

(** X4: [find_metric] only returns one of the five metric columns, which
    every row has; it returns nothing exactly when no alias occurs in the
    normalised query. *)
Theorem find_metric_result q :
  (forall m, find_metric q = Some m ->
     In m [M_REVENUE; M_INCOME; M_ASSETS; M_LIABILITIES; M_CFO] /\
     forall r, exists v, row_metric r m = ret v) /\
  (find_metric q = None <->
     forall a, In a METRIC_ALIASES -> contains (fst a) (normalize_text q) = false).
Proof.
  split.
  - intros m Hm. split; [|apply (find_metric_key q m Hm)].
    unfold find_metric in Hm.
    destruct (find _ _) as [[a m']|] eqn:F; [|discriminate]. injection Hm as <-.
    apply find_some in F as [Hin _]. rewrite sort_desc_in in Hin.
    simpl in Hin. simpl.
    repeat destruct Hin as [Hin|Hin]; try contradiction; injection Hin as _ <-; tauto.
  - unfold find_metric.
    destruct (find _ _) as [[a m']|] eqn:F.
    + split; [discriminate|]. intros H. exfalso.
      apply find_some in F as [Hin Hc]. rewrite sort_desc_in in Hin.
      rewrite (H _ Hin) in Hc. discriminate.
    + split; [|reflexivity]. intros _ a Ha.
      rewrite find_none_iff in F. apply F, sort_desc_in, Ha.
Qed.

(** X5: [find_year] returns [y] exactly when [y] is the first [20xx] token
    of the query (the first token [re.findall] reports) and a dataset year;
    every [20xx] token is between 2000 and 2099. *)
Theorem find_year_first_token :
  (forall q ys y, find_year q ys = Some y <-> hd_error (findall_20xx q) = Some y /\ In y ys) /\
  (forall q z, In z (findall_20xx q) -> (2000 <= z <= 2099)%Z).
Proof.
  split; [|apply findall_range].
  intros q ys y. rewrite findall_head. split.
  - intros H. split; [|apply (find_year_in q), H].
    unfold find_year in H. destruct (search_20xx q) as [z|]; [|discriminate].
    destruct (existsb _ _); [exact H|discriminate].
  - intros [Hs Hin]. apply find_year_member; assumption.
Qed.

(** X6: [get_row] returns the first row, in dataset order, whose company
    equals the given name case-insensitively and whose year is the given
    year; it returns nothing exactly when no row matches; the letter case
    of the name does not matter. *)
Theorem get_row_first_match ctx c y :
  (forall r, get_row ctx c y = Some r ->
     exists l1 l2, rows ctx = (l1 ++ r :: l2)%list /\
       lower (company r) = lower c /\ fiscal_year r = y /\
       forall r', In r' l1 -> lower (company r') <> lower c \/ fiscal_year r' <> y) /\
  (get_row ctx c y = None <->
     forall r, In r (rows ctx) -> lower (company r) <> lower c \/ fiscal_year r <> y) /\
  get_row ctx (lower c) y = get_row ctx c y.
Proof.
  assert (Hf : forall r, (lower (company r) =? lower c) && (fiscal_year r =? y)%Z = false <->
                         lower (company r) <> lower c \/ fiscal_year r <> y).
  { intros r. rewrite andb_false_iff, String.eqb_neq, Z.eqb_neq. reflexivity. }
  split; [|split].
  - intros r H. unfold get_row in H. apply find_first in H as [l1 [l2 [E [Hr Hl1]]]].
    apply andb_true_iff in Hr as [H1 H2]. apply String.eqb_eq in H1. apply Z.eqb_eq in H2.
    exists l1, l2. repeat split; try assumption.
    intros r' Hr'. apply Hf, Hl1, Hr'.
  - unfold get_row. rewrite find_none_iff.
    split; intros H r Hr; apply Hf, H, Hr.
  - unfold get_row. rewrite lower_idem. reflexivity.
Qed.

(** X7: the company list and the year list built by [load_data] are
    strictly increasing (so free of duplicates), and hold exactly the
    companies and the years of the rows. *)
Theorem load_data_lists rs :
  StronglySorted (fun a b => String.compare a b = Lt) (companies (load_ctx rs)) /\
  (forall c, In c (companies (load_ctx rs)) <-> exists r, In r rs /\ company r = c) /\
  StronglySorted Z.lt (years (load_ctx rs)) /\
  (forall y, In y (years (load_ctx rs)) <-> exists r, In r rs /\ fiscal_year r = y).
Proof.
  split; [apply companies_strict|]. split; [|split; [apply sorted_set_sorted|]].
  - intros c. split; [apply companies_of_load|]. intros [r [Hr <-]]. apply company_in_load, Hr.
  - intros y. split; [apply years_of_load|]. intros [r [Hr <-]]. apply year_in_load, Hr.
Qed.

(** X8: for a positive value [v], [money(-v)] is [money(v)] with a minus
    sign after the dollar sign. *)
Theorem money_negative v :
  0 < v -> exists body, money v = "$" ++ body ++ "M" /\ money (- v) = "$-" ++ body ++ "M".
Proof.
  intros Hv. exists (group_thousands (N_to_string (Z.abs_N (round_half_even v)))).
  unfold money, fmt_comma0, neg_sign. rewrite round_half_even_opp.
  replace (Qle_bool 0 v) with true by (symmetry; apply Qle_bool_iff, Qlt_le_weak, Hv).
  replace (Qle_bool 0 (- v)) with false.
  - replace (Z.abs_N (- round_half_even v)) with (Z.abs_N (round_half_even v))
      by (destruct (round_half_even v); reflexivity).
    split; reflexivity.
  - symmetry. apply not_true_iff_false. intros C. apply Qle_bool_iff in C.
    apply (Qlt_not_le 0 v Hv). apply Qopp_le_compat in C.
    rewrite Qopp_involutive in C. exact C.
Qed.

(** X9: a value exactly halfway between two integers is rounded to the
    even one; for non-negative values [money] prints it as that integer. *)
Theorem money_ties_to_even k :
  round_half_even ((2 * k + 1) # 2) = (if Z.even k then k else k + 1)%Z /\
  ((0 <= k)%Z -> money ((2 * k + 1) # 2) = money (inject_Z (if Z.even k then k else k + 1))).
Proof.
  split; [apply round_half_even_tie|]. intros Hk.
  unfold money, fmt_comma0, neg_sign. rewrite round_half_even_tie, round_half_even_Z.
  replace (Qle_bool 0 ((2 * k + 1) # 2)) with true
    by (symmetry; apply Qle_bool_iff; unfold Qle; cbn [Qnum Qden]; lia).
  replace (Qle_bool 0 (inject_Z (if Z.even k then k else k + 1))) with true.
  - reflexivity.
  - symmetry. apply Qle_bool_iff. unfold Qle, inject_Z. cbn [Qnum Qden].
    destruct (Z.even k); lia.
Qed.

(** X10: the comparison branch answers with a header line and one line per
    row of the requested year, every row of that year exactly once, in
    order of decreasing metric value. *)
Theorem compare_lists_year_desc ctx query m y :
  dispatch (normalize_text query) = ICompare ->
  truthy_str (find_metric (normalize_text query)) = Some m ->
  truthy_int (find_year (normalize_text query) (years ctx)) = Some y ->
  exists srt,
    Permutation srt (yearly_rows ctx y) /\
    StronglySorted (fun a b => metric_value b m <= metric_value a m) srt /\
    handle_query ctx query
    = ret (join nl ((m ++ " in " ++ Z_to_string y ++ ":")
                    :: map (fun r => "- " ++ company r ++ ": " ++ money (metric_value r m)) srt)).
Proof.
  intros Hd Hm Hy.
  unfold handle_query. rewrite Hd. unfold handle_compare. rewrite Hm, Hy.
  apply truthy_str_some in Hm. pose proof (find_metric_key _ m Hm) as Hk.
  destruct (keyed_ok m (yearly_rows ctx y) Hk) as [kv [E [Hf Hall]]].
  exists (map fst (sort_desc key_ge kv)). split; [|split].
  - rewrite <- Hf. apply Permutation_map, sort_desc_perm.
  - apply (StronglySorted_map (fun p => row_metric (fst p) m = ret (snd p))
             (fun a b => snd b <= snd a)).
    + rewrite Forall_forall in *. intros p Hp. apply Hall, (sort_desc_in key_ge kv p), Hp.
    + apply sort_desc_sorted.
    + intros a b Ha Hb Hab. rewrite (metric_value_spec _ _ _ Ha), (metric_value_spec _ _ _ Hb).
      exact Hab.
  - unfold sort_by_metric. rewrite E, !bind_ret.
    rewrite (mapM_map _ (fun r => "- " ++ company r ++ ": " ++ money (metric_value r m))).
    + reflexivity.
    + intros r _. destruct (Hk r) as [v Hv]. rewrite Hv, bind_ret.
      rewrite (metric_value_spec _ _ _ Hv). reflexivity.
Qed.

(** X11: a growth query whose [20xx] tokens are all the same year (or
    that has none) gets the growth guide text. *)
Theorem growth_needs_two_years ctx query :
  dispatch (normalize_text query) = IGrowth ->
  (forall a b, In a (findall_20xx (normalize_text query)) ->
               In b (findall_20xx (normalize_text query)) -> a = b) ->
  handle_query ctx query = ret growth_guide.
Proof.
  intros Hd Heq. unfold handle_query. rewrite Hd. unfold handle_growth.
  assert (L : (List.length (sorted_set Z.compare (findall_20xx (normalize_text query))) <? 2)%nat
              = true).
  { apply Nat.ltb_lt. pose proof (sorted_set_sorted (findall_20xx (normalize_text query))) as Hs.
    pose proof (sorted_set_in Z.compare (findall_20xx (normalize_text query))) as Hin.
    destruct (sorted_set Z.compare (findall_20xx (normalize_text query)))
      as [|x [|z t]]; simpl; try lia.
    exfalso. inversion Hs as [|? ? _ Hall]; subst. inversion Hall as [|? ? Hxz _]; subst.
    assert (x = z) by (apply Heq; apply Hin; simpl; tauto). lia. }
  destruct (truthy_str (find_company _ _)); [|reflexivity].
  destruct (truthy_str (find_metric _)); [|reflexivity].
  rewrite L. reflexivity.
Qed.

(** X12: when the summary branch is reached for a company [c] that has a
    row in the dataset's latest year, the answer is the summary of [c]'s
    first row of that year, headed by that year. *)
Theorem summary_latest_row rs query c r0 :
  dispatch (normalize_text query) = ILookup ->
  truthy_str (find_company (normalize_text query) (companies (load_ctx rs))) = Some c ->
  (truthy_int (find_year (normalize_text query) (years (load_ctx rs))) = None \/
   truthy_str (find_metric (normalize_text query)) = None) ->
  contains "summary" (normalize_text query) || contains "overview" (normalize_text query)
    = true ->
  In r0 rs -> lower (company r0) = lower c ->
  (forall r, In r rs -> (fiscal_year r <= fiscal_year r0)%Z) ->
  exists r, get_row (load_ctx rs) c (fiscal_year r0) = Some r /\
    handle_query (load_ctx rs) query = ret (summary_text c (fiscal_year r0) r).
Proof.
  intros Hd Hc Hym Hs Hr0 Hl0 Hmax0.
  assert (Hne : years (load_ctx rs) <> []).
  { intros E. pose proof (year_in_load rs r0 Hr0) as H. rewrite E in H. destruct H. }
  destruct (py_max_spec _ Hne) as [latest [Hl [Hin Hmax]]].
  assert (Hlat : latest = fiscal_year r0).
  { apply years_of_load in Hin as [r [Hr <-]].
    pose proof (Hmax0 r Hr). pose proof (Hmax _ (year_in_load rs r0 Hr0)). lia. }
  subst latest.
  destruct (get_row (load_ctx rs) c (fiscal_year r0)) as [r|] eqn:G.
  - exists r. split; [reflexivity|].
    unfold handle_query. rewrite Hd. unfold handle_lookup. cbv zeta. rewrite Hc.
    destruct Hym as [Hy|Hm].
    + rewrite Hy, Hs, Hl, bind_ret, G. reflexivity.
    + rewrite Hm. destruct (truthy_int _); rewrite Hs, Hl, bind_ret, G; reflexivity.
  - exfalso. unfold get_row in G. rewrite find_none_iff in G.
    specialize (G r0 Hr0). simpl in G. rewrite Hl0, String.eqb_refl, Z.eqb_refl in G.
    discriminate.
Qed.

(** X13: a query that reaches the point lookup and names no listed company
    gets the fixed not-understood text. *)
Theorem lookup_without_company ctx query :
  dispatch (normalize_text query) = ILookup ->
  (forall c, In c (companies ctx) -> contains (lower c) (normalize_text query) = false) ->
  handle_query ctx query = ret not_understood.
Proof.
  intros Hd Hno. unfold handle_query. rewrite Hd. unfold handle_lookup. cbv zeta.
  replace (find_company (normalize_text query) (companies ctx)) with (@None string).
  - reflexivity.
  - symmetry. unfold find_company. rewrite normalize_idem. apply find_none_iff, Hno.
Qed.

(** X14: a row with an empty company name makes every point lookup and
    summary query answer the not-understood text and every growth query the
    growth guide: the empty name sorts first, occurs in every query, and is
    falsy. *)
Theorem empty_company_blocks rs query r0 :
  In r0 rs -> company r0 = "" ->
  (dispatch (normalize_text query) = ILookup ->
   handle_query (load_ctx rs) query = ret not_understood) /\
  (dispatch (normalize_text query) = IGrowth ->
   handle_query (load_ctx rs) query = ret growth_guide).
Proof.
  intros Hr0 He.
  assert (Hc : find_company (normalize_text query) (companies (load_ctx rs)) = Some "").
  { pose proof (company_in_load rs r0 Hr0) as Hin. rewrite He in Hin.
    destruct (empty_name_first _ (companies_strict rs) Hin) as [t Et].
    rewrite Et. unfold find_company. simpl. rewrite contains_empty. reflexivity. }
  split; intros Hd; unfold handle_query; rewrite Hd.
  - unfold handle_lookup. cbv zeta. rewrite Hc. reflexivity.
  - unfold handle_growth. cbv zeta. rewrite Hc. reflexivity.
Qed.

(** X15: [main] stops reading at the first line that normalises to [exit]
    or [quit]: lines after it change nothing. *)
Theorem session_ends_at_exit rs inputs more line :
  In line inputs -> (normalize_text line = "exit" \/ normalize_text line = "quit") ->
  main rs (inputs ++ more) = main rs inputs.
Proof.
  intros Hin Hx. unfold main.
  assert (Hx' : (normalize_text (strip line) =? "exit") || (normalize_text (strip line) =? "quit")
                = true).
  { rewrite normalize_strip. destruct Hx as [-> | ->]; reflexivity. }
  assert (Hb : (strip line =? "") = false).
  { apply String.eqb_neq. intros E. rewrite E in Hx'. discriminate. }
  enough (chat_loop (load_ctx rs) (inputs ++ more) = chat_loop (load_ctx rs) inputs)
    as -> by reflexivity.
  induction inputs as [|l rest IH]; [destruct Hin|]. cbn [app chat_loop].
  destruct Hin as [<-|Hin].
  - rewrite Hb, Hx'. reflexivity.
  - rewrite (IH Hin). reflexivity.
Qed.

(** X16: [main] prints the greeting first, never raises, and its last
    output is a goodbye line. *)
Theorem session_says_bye rs inputs :
  exists out last,
    main rs inputs = ((py_print [intro_line] :: out ++ [last])%list, None) /\
    (last = py_print ["Bot: Bye."] \/ last = py_print [nl ++ "Bot: Bye."]).
Proof.
  destruct (chat_loop_bye rs inputs) as [out [last [E Hl]]].
  exists out, last. unfold main. rewrite E. split; [reflexivity|exact Hl].
Qed.


Lemma find_metric_result_witness :
  In M_INCOME [M_REVENUE; M_INCOME; M_ASSETS; M_LIABILITIES; M_CFO] /\
  find_metric "Apple summary" = None.
Proof.
  split.
  - exact (proj1 (proj1 (find_metric_result "compare net income 2024") M_INCOME
                    ltac:(vm_compute; reflexivity))).
  - apply (proj2 (proj2 (find_metric_result "Apple summary"))).
    intros a Ha. simpl in Ha.
    repeat destruct Ha as [<-|Ha]; try contradiction; vm_compute; reflexivity.
Defined.

Lemma find_year_first_token_witness :
  find_year "growth of Tesla revenue from 2023 to 2025" [2023; 2025]%Z = Some 2023%Z /\
  (2000 <= 2025 <= 2099)%Z.
Proof.
  split.
  - apply (proj2 (proj1 find_year_first_token _ _ _)).
    split; [vm_compute; reflexivity|simpl; tauto].
  - apply (proj2 find_year_first_token "growth of Tesla revenue from 2023 to 2025").
    vm_compute. tauto.
Defined.

Lemma get_row_first_match_witness :
  (exists l1 l2, rows (load_ctx [tesla23; tesla25]) = (l1 ++ tesla25 :: l2)%list /\
     lower (company tesla25) = lower "TESLA" /\ fiscal_year tesla25 = 2025%Z /\
     forall r', In r' l1 -> lower (company r') <> lower "TESLA" \/ fiscal_year r' <> 2025%Z) /\
  get_row (load_ctx [tesla23; tesla25]) "Tesla" 2024 = None.
Proof.
  split.
  - apply (proj1 (get_row_first_match (load_ctx [tesla23; tesla25]) "TESLA" 2025)).
    vm_compute. reflexivity.
  - apply (proj2 (proj1 (proj2 (get_row_first_match (load_ctx [tesla23; tesla25]) "Tesla" 2024)))).
    intros r [<-|[<-|[]]]; right; intros H; vm_compute in H; discriminate H.
Defined.

Lemma load_data_lists_witness :
  In "Tesla" (companies (load_ctx [apple25; tesla23; tesla25])) /\
  In 2023%Z (years (load_ctx [apple25; tesla23; tesla25])).
Proof.
  split.
  - apply (proj2 (proj1 (proj2 (load_data_lists [apple25; tesla23; tesla25])) "Tesla")).
    exists tesla25. split; [simpl; tauto|reflexivity].
  - apply (proj2 (proj2 (proj2 (proj2 (load_data_lists [apple25; tesla23; tesla25]))) 2023%Z)).
    exists tesla23. split; [simpl; tauto|reflexivity].
Defined.

Lemma money_negative_witness :
  exists body, money (123456 # 10) = "$" ++ body ++ "M" /\
               money (- (123456 # 10)) = "$-" ++ body ++ "M".
Proof. apply money_negative. vm_compute. reflexivity. Defined.

Lemma money_ties_to_even_witness : money (5 # 2) = money 2 /\ money (7 # 2) = money 4.
Proof.
  exact (conj (proj2 (money_ties_to_even 2) ltac:(lia))
              (proj2 (money_ties_to_even 3) ltac:(lia))).
Defined.

Lemma compare_lists_year_desc_witness :
  exists srt,
    Permutation srt (yearly_rows (load_ctx rank_rows) 2025) /\
    StronglySorted (fun a b => metric_value b M_REVENUE <= metric_value a M_REVENUE) srt /\
    handle_query (load_ctx rank_rows) "compare revenue 2025"
    = ret (join nl ((M_REVENUE ++ " in " ++ Z_to_string 2025 ++ ":")
                    :: map (fun r => "- " ++ company r ++ ": "
                                     ++ money (metric_value r M_REVENUE)) srt)).
Proof. apply compare_lists_year_desc; vm_compute; reflexivity. Defined.

Lemma growth_needs_two_years_witness :
  handle_query (load_ctx [tesla23; tesla25]) "growth of Tesla revenue from 2025 to 2025"
  = ret growth_guide.
Proof.
  apply growth_needs_two_years; [vm_compute; reflexivity|].
  intros a b Ha Hb. vm_compute in Ha, Hb.
  destruct Ha as [<-|[<-|[]]]; destruct Hb as [<-|[<-|[]]]; reflexivity.
Defined.

Lemma summary_latest_row_witness :
  exists r, get_row (load_ctx [apple24; apple25]) "Apple" 2025 = Some r /\
    handle_query (load_ctx [apple24; apple25]) "Apple summary"
    = ret (summary_text "Apple" 2025 r).
Proof.
  apply (summary_latest_row [apple24; apple25] "Apple summary" "Apple" apple25);
    [vm_compute; reflexivity | vm_compute; reflexivity | left; vm_compute; reflexivity
    | vm_compute; reflexivity | simpl; tauto | reflexivity |].
  intros r [<-|[<-|[]]]; simpl; lia.
Defined.

Lemma lookup_without_company_witness :
  handle_query (load_ctx [tesla25]) "Apple revenue 2025" = ret not_understood.
Proof.
  apply lookup_without_company; [vm_compute; reflexivity|].
  intros c Hc. vm_compute in Hc. destruct Hc as [<-|[]]. vm_compute. reflexivity.
Defined.

Lemma empty_company_blocks_witness :
  handle_query (load_ctx [noname25; apple25]) "Apple revenue 2025" = ret not_understood /\
  handle_query (load_ctx [noname25; apple25]) "growth of Apple revenue from 2024 to 2025"
  = ret growth_guide.
Proof.
  split.
  - apply (proj1 (empty_company_blocks [noname25; apple25] "Apple revenue 2025" noname25
                    ltac:(simpl; tauto) eq_refl)).
    vm_compute. reflexivity.
  - apply (proj2 (empty_company_blocks [noname25; apple25]
                    "growth of Apple revenue from 2024 to 2025" noname25
                    ltac:(simpl; tauto) eq_refl)).
    vm_compute. reflexivity.
Defined.

Lemma session_ends_at_exit_witness :
  main [apple25] ["hello"; " EXIT "; "Apple revenue 2025"] = main [apple25] ["hello"; " EXIT "].
Proof.
  apply (session_ends_at_exit [apple25] ["hello"; " EXIT "] ["Apple revenue 2025"] " EXIT ");
    [simpl; tauto | left; vm_compute; reflexivity].
Defined.
